(** * wqs: the queue service facade ([engine/queue/queue_imp.go])

    A shallow embedding of [queueImp] and its methods.  The facade owns one
    piece of state, the consumer-session cache [consumerMap]; everything else
    it does is a call to one of its collaborators (the kafka manager, the
    extended-metadata manager, the producer, the consumers, the metrics
    monitor, the logger).  The methods are therefore embedded as programs
    over the collaborators' calls: a program is run against a handler that
    answers every call, and the run yields the method's return value, the
    handler's final state and the trace of calls with their answers. *)

From Stdlib Require Import ZArith String Ascii List Bool Lia Sorted.
From stdpp Require Import base option list gmap strings.

Local Open Scope Z_scope.
Local Open Scope string_scope.
Local Open Scope list_scope.

(** ** Errors ([github.com/juju/errors]) *)

(** The error kinds the facade builds, by the constructor that builds them;
    the message is the formatted context, without the kind's suffix.
    [Upstream] stands for an error of a collaborator that is none of them. *)
Inductive error : Type :=
| NotValid (msg : string)
| AlreadyExists (msg : string)
| NotFound (msg : string)
| NotImplemented (msg : string)
| Upstream (msg : string).

Definition NotValidf (msg : string) : error := NotValid msg.
Definition AlreadyExistsf (msg : string) : error := AlreadyExists msg.
Definition NotFoundf (msg : string) : error := NotFound msg.
Definition NotImplementedf (msg : string) : error := NotImplemented msg.

(** [errors.Trace] records the caller's location and keeps the cause. *)
Definition Trace (err : error) : error := err.

(** A Go pair [(value, error)] of which the value is read only when the
    error is nil. *)
Inductive result (A : Type) : Type :=
| Ok (a : A)
| Err (err : error).
Arguments Ok {A} a.
Arguments Err {A} err.

(** ** Data model ([model], [config], [metrics]) *)

(** [model.GroupConfig]; a field left out of a struct literal holds Go's zero
    value, the empty string for a name. *)
Module GroupConfig.
Record t : Type := Build {
  Group : string;
  Queue : string;
  Write : bool;
  Read : bool;
  Url : string;
  Ips : list string
}.
End GroupConfig.

(** [model.QueueInfo] *)
Module QueueInfo.
Record t : Type := Build {
  Queue : string;
  Ctime : Z;
  Length : Z;
  Groups : list GroupConfig.t
}.
End QueueInfo.

(** [model.GroupInfo] *)
Module GroupInfo.
Record t : Type := Build {
  Group : string;
  Queues : list GroupConfig.t
}.
End GroupInfo.

(** The fields of [config.Config] that the methods read. *)
Module Config.
Record t : Type := Build {
  KafkaBrokerAddr : string;
  KafkaZKAddr : string;
  KafkaReplications : Z;
  KafkaPartitions : Z
}.
End Config.

(** A [*kafka.Consumer]: the pointer, that is the identity of a consumer
    session. *)
Definition Consumer : Type := nat.

(** Modelled from the spec: [metrics.MetricsObj], declared outside
    [queue_imp.go]; by section 4.4 a query answers with its buckets. *)
Definition MetricsObj : Type := list Z.

Definition bytes : Type := list Byte.byte.

(** A Go [map[string][]string] as the [range] loop meets it: the entries in
    the order of the iteration, which Go leaves unspecified. *)
Definition namesMap : Type := list (string * list string).

Fixpoint namesMap_lookup (m : namesMap) (name : string) : option (list string) :=
  match m with
  | [] => None
  | (k, v) :: m' => if String.eqb k name then Some v else namesMap_lookup m' name
  end.

(** ** The collaborators' calls *)

Inductive call : Type -> Type :=
(* kafka.Manager *)
| ExistTopic (topic : string) (refresh : bool) : call (result bool)
| CreateTopic (topic : string) (replications partitions : Z) (zkAddr : string)
  : call (option error)
| DeleteTopic (topic : string) (zkAddr : string) : call (option error)
(* kafka.ExtendManager *)
| ExistQueue (queue : string) : call (result bool)
| AddQueue (queue : string) : call (option error)
| DelQueue (queue : string) : call (option error)
| QueueCreateTime (queue : string) : call (result Z)
| GetQueueMap : call (result namesMap)
| GetGroupMap : call (result namesMap)
| GetGroupConfig (group queue : string) : call (result (option GroupConfig.t))
| AddGroupConfig (group queue : string) (write read : bool) (url : string)
    (ips : list string) : call (option error)
| UpdateGroupConfig (group queue : string) (write read : bool) (url : string)
    (ips : list string) : call (option error)
| DeleteGroupConfig (group queue : string) : call (option error)
(* kafka.Producer *)
| Send (topic : string) (data : bytes) : call (option error)
(* kafka.NewConsumer, kafka.Consumer *)
| NewConsumer (brokerAddrs : list string) (topic group : string)
  : call (result Consumer)
| Recv (consumer : Consumer) : call (result bytes)
(* metrics.Monitor *)
| StatisticSend (queue group : string) (n : Z) : call unit
| StatisticReceive (queue group : string) (n : Z) : call unit
| MonitorGetSendMetrics (queue group : string) (start stop intervalnum : Z)
  : call (result MetricsObj)
| MonitorGetReceiveMetrics (queue group : string) (start stop intervalnum : Z)
  : call (result MetricsObj)
(* seelog *)
| Warnf (msg : string) : call unit
(* sync.Mutex, the facade's [mu] *)
| Lock : call unit
| Unlock : call unit.

(** One call of a run, with the answer it got. *)
Inductive event : Type :=
| Ev {R : Type} (c : call R) (r : R).

(** ** Programs over the calls *)

Inductive Prog (A : Type) : Type :=
| Ret (a : A)
| Do {R : Type} (c : call R) (k : R -> Prog A).
Arguments Ret {A} a.
Arguments Do {A R} c k.

Fixpoint Prog_bind {A B : Type} (f : A -> Prog B) (p : Prog A) : Prog B :=
  match p with
  | Ret a => f a
  | Do c k => Do c (fun r => Prog_bind f (k r))
  end.

#[global] Instance Prog_mret : MRet Prog := @Ret.
#[global] Instance Prog_mbind : MBind Prog := @Prog_bind.

Definition invoke {R : Type} (c : call R) : Prog R := Do c Ret.

(** A handler answers every call from its state [W]. *)
Definition handler (W : Type) : Type := forall R : Type, call R -> W -> R * W.

Fixpoint run {W A : Type} (h : handler W) (p : Prog A) (w : W)
  : A * W * list event :=
  match p with
  | Ret a => (a, w, [])
  | Do c k =>
      let '(r, w1) := h _ c w in
      let '(a, w2, tr) := run h (k r) w1 in
      (a, w2, Ev c r :: tr)
  end.

Definition returned {W A : Type} (x : A * W * list event) : A := x.1.1.
Definition final {W A : Type} (x : A * W * list event) : W := x.1.2.
Definition trace {W A : Type} (x : A * W * list event) : list event := x.2.

(** ** The facade *)

Record queueImp : Type := {
  conf : Config.t;
  consumerMap : gmap string Consumer
}.

(** [strings.Split(s, ",")] *)
Fixpoint Split_comma (s : string) : list string :=
  match s with
  | EmptyString => [EmptyString]
  | String a s' =>
      if Ascii.eqb a "," then EmptyString :: Split_comma s'
      else match Split_comma s' with
           | h :: t => String a h :: t
           | [] => [String a EmptyString]
           end
  end.

(** [fmt.Sprintf("%s@%s", queue, group)] *)
Definition consumerId (queue group : string) : string :=
  queue +:+ "@" +:+ group.

(** The state [newQueue] leaves behind: the configuration and an empty
    session cache.  The collaborators it connects are the handler of a run. *)
Definition newQueue (config : Config.t) : queueImp :=
  {| conf := config; consumerMap := ∅ |}.

(** [Create]: the [NotValidf] of step 1 is built and dropped, there is no
    [return] in front of it. *)
Definition Create (q : queueImp) (queue : string) : Prog (option error) :=
  let _ := if (String.length queue =? 0)%nat
           then Some (NotValidf ("CreateQueue queue:" +:+ queue)) else None in
  r ← invoke (ExistTopic queue true);
  match r with
  | Err err => Ret (Some (Trace err))
  | Ok true => Ret (Some (AlreadyExistsf ("CreateQueue queue:" +:+ queue +:+ " ")))
  | Ok false =>
      r ← invoke (ExistQueue queue);
      match r with
      | Err err => Ret (Some (Trace err))
      | Ok true =>
          Ret (Some (AlreadyExistsf ("CreateQueue queue:" +:+ queue +:+ " ")))
      | Ok false =>
          e ← invoke (AddQueue queue);
          match e with
          | Some err => Ret (Some (Trace err))
          | None =>
              invoke (CreateTopic queue
                        (Config.KafkaReplications (conf q))
                        (Config.KafkaPartitions (conf q))
                        (Config.KafkaZKAddr (conf q)))
          end
      end
  end.

Definition Update (q : queueImp) (queue : string) : Prog (option error) :=
  let _ := if (String.length queue =? 0)%nat
           then Some (NotValidf ("UpdateQueue queue:" +:+ queue)) else None in
  r ← invoke (ExistTopic queue true);
  match r with
  | Err err => Ret (Some (Trace err))
  | Ok false => Ret (Some (NotFoundf ("UpdateQueue queue:" +:+ queue +:+ " ")))
  | Ok true => Ret None
  end.

Definition Delete (q : queueImp) (queue : string) : Prog (option error) :=
  let _ := if (String.length queue =? 0)%nat
           then Some (NotValidf ("DeleteQueue queue:" +:+ queue)) else None in
  r ← invoke (ExistTopic queue true);
  match r with
  | Err err => Ret (Some (Trace err))
  | Ok false => Ret (Some (NotFoundf ("DeleteQueue queue:" +:+ queue +:+ " ")))
  | Ok true =>
      r ← invoke (ExistQueue queue);
      match r with
      | Err err => Ret (Some (Trace err))
      | Ok false =>
          Ret (Some (NotFoundf ("DeleteQueue queue:" +:+ queue +:+ " ")))
      | Ok true =>
          e ← invoke (DelQueue queue);
          match e with
          | Some err => Ret (Some (Trace err))
          | None => invoke (DeleteTopic queue (Config.KafkaZKAddr (conf q)))
          end
      end
  end.

(** The struct literal of [Lookup]: the stored record's [Group], [Write],
    [Read], [Url] and [Ips]; no [Queue]. *)
Definition lookupConfig (config : GroupConfig.t) : GroupConfig.t :=
  {| GroupConfig.Group := GroupConfig.Group config;
     GroupConfig.Queue := "";
     GroupConfig.Write := GroupConfig.Write config;
     GroupConfig.Read := GroupConfig.Read config;
     GroupConfig.Url := GroupConfig.Url config;
     GroupConfig.Ips := GroupConfig.Ips config |}.

(** The struct literal of [LookupGroup]: the stored record's [Queue],
    [Write], [Read], [Url] and [Ips]; no [Group]. *)
Definition lookupGroupConfig (config : GroupConfig.t) : GroupConfig.t :=
  {| GroupConfig.Group := "";
     GroupConfig.Queue := GroupConfig.Queue config;
     GroupConfig.Write := GroupConfig.Write config;
     GroupConfig.Read := GroupConfig.Read config;
     GroupConfig.Url := GroupConfig.Url config;
     GroupConfig.Ips := GroupConfig.Ips config |}.

(** The loop over a queue's group names, in [Lookup]'s first two cases.
    [groupConfigs] is the slice declared at the top of [Lookup]: the loop
    appends to what it is handed. *)
Fixpoint lookupGroupsOf (queueName : string) (groupNames : list string)
    (groupConfigs : list GroupConfig.t) : Prog (result (list GroupConfig.t)) :=
  match groupNames with
  | [] => Ret (Ok groupConfigs)
  | groupName :: rest =>
      r ← invoke (GetGroupConfig groupName queueName);
      match r with
      | Err err => Ret (Err (Trace err))
      | Ok (Some config) =>
          lookupGroupsOf queueName rest (groupConfigs ++ [lookupConfig config])
      | Ok None =>
          _ ← invoke (Warnf ("config is nil queue:" +:+ queueName
                               +:+ ", group:" +:+ groupName));
          lookupGroupsOf queueName rest groupConfigs
      end
  end.

(** The loop over the queue map, in [Lookup]'s first case.  [groupConfigs]
    is not reset between two queues. *)
Fixpoint lookupQueues (queueMap : namesMap) (groupConfigs : list GroupConfig.t)
    (queueInfos : list QueueInfo.t) : Prog (list QueueInfo.t * option error) :=
  match queueMap with
  | [] => Ret (queueInfos, None)
  | (queueName, groupNames) :: rest =>
      r ← lookupGroupsOf queueName groupNames groupConfigs;
      match r with
      | Err err => Ret (queueInfos, Some err)
      | Ok groupConfigs =>
          t ← invoke (QueueCreateTime queueName);
          match t with
          | Err err => Ret (queueInfos, Some (Trace err))
          | Ok ctime =>
              lookupQueues rest groupConfigs
                (queueInfos ++ [ {| QueueInfo.Queue := queueName;
                                    QueueInfo.Ctime := ctime;
                                    QueueInfo.Length := 0;
                                    QueueInfo.Groups := groupConfigs |} ])
          end
      end
  end.

(** [Lookup] returns its list along with the error. *)
Definition Lookup (q : queueImp) (queue group : string)
  : Prog (list QueueInfo.t * option error) :=
  let queueInfos : list QueueInfo.t := [] in
  let groupConfigs : list GroupConfig.t := [] in
  if String.eqb queue "" then
    m ← invoke GetQueueMap;
    match m with
    | Err err => Ret (queueInfos, Some (Trace err))
    | Ok queueMap => lookupQueues queueMap groupConfigs queueInfos
    end
  else if String.eqb group "" then
    m ← invoke GetQueueMap;
    match m with
    | Err err => Ret (queueInfos, Some (Trace err))
    | Ok queueMap =>
        match namesMap_lookup queueMap queue with
        | None => Ret (queueInfos, None)
        | Some groupNames =>
            r ← lookupGroupsOf queue groupNames groupConfigs;
            match r with
            | Err err => Ret (queueInfos, Some err)
            | Ok groupConfigs =>
                t ← invoke (QueueCreateTime queue);
                match t with
                | Err err => Ret (queueInfos, Some (Trace err))
                | Ok ctime =>
                    Ret (queueInfos ++ [ {| QueueInfo.Queue := queue;
                                            QueueInfo.Ctime := ctime;
                                            QueueInfo.Length := 0;
                                            QueueInfo.Groups := groupConfigs |} ],
                         None)
                end
            end
        end
    end
  else
    r ← invoke (GetGroupConfig group queue);
    match r with
    | Err err => Ret (queueInfos, Some (Trace err))
    | Ok config =>
        let groupConfigs :=
          match config with
          | Some config => groupConfigs ++ [lookupConfig config]
          | None => groupConfigs
          end in
        t ← invoke (QueueCreateTime queue);
        match t with
        | Err err => Ret (queueInfos, Some (Trace err))
        | Ok ctime =>
            Ret (queueInfos ++ [ {| QueueInfo.Queue := queue;
                                    QueueInfo.Ctime := ctime;
                                    QueueInfo.Length := 0;
                                    QueueInfo.Groups := groupConfigs |} ],
                 None)
        end
    end.

Definition AddGroup (q : queueImp) (group queue : string) (write read : bool)
    (url : string) (ips : list string) : Prog (option error) :=
  let _ := if (String.length group =? 0)%nat || (String.length queue =? 0)%nat
           then Some (NotValidf ("add group:" +:+ group +:+ " @ queue:" +:+ queue))
           else None in
  r ← invoke (ExistTopic queue true);
  match r with
  | Err err => Ret (Some (Trace err))
  | Ok false => Ret (Some (NotFoundf ("AddGroup queue:" +:+ queue +:+ " ")))
  | Ok true =>
      e ← invoke (AddGroupConfig group queue write read url ips);
      match e with
      | Some err => Ret (Some (Trace err))
      | None => Ret None
      end
  end.

Definition UpdateGroup (q : queueImp) (group queue : string) (write read : bool)
    (url : string) (ips : list string) : Prog (option error) :=
  let _ := if (String.length group =? 0)%nat || (String.length queue =? 0)%nat
           then Some (NotValidf ("add group:" +:+ group +:+ " @ queue:" +:+ queue))
           else None in
  r ← invoke (ExistTopic queue true);
  match r with
  | Err err => Ret (Some (Trace err))
  | Ok false => Ret (Some (NotFoundf ("UpdateGroup queue:" +:+ queue +:+ " ")))
  | Ok true =>
      e ← invoke (UpdateGroupConfig group queue write read url ips);
      match e with
      | Some err => Ret (Some (Trace err))
      | None => Ret None
      end
  end.

Definition DeleteGroup (q : queueImp) (group queue : string)
  : Prog (option error) :=
  let _ := if (String.length group =? 0)%nat || (String.length queue =? 0)%nat
           then Some (NotValidf ("add group:" +:+ group +:+ " @ queue:" +:+ queue))
           else None in
  r ← invoke (ExistTopic queue true);
  match r with
  | Err err => Ret (Some (Trace err))
  | Ok false => Ret (Some (NotFoundf ("DeleteGroup queue:" +:+ queue +:+ " ")))
  | Ok true =>
      e ← invoke (DeleteGroupConfig group queue);
      match e with
      | Some err => Ret (Some (Trace err))
      | None => Ret None
      end
  end.

(** The loop over a group's queue names, in both branches of [LookupGroup]. *)
Fixpoint lookupQueuesOf (groupName : string) (queueNames : list string)
    (groupConfigs : list GroupConfig.t) : Prog (result (list GroupConfig.t)) :=
  match queueNames with
  | [] => Ret (Ok groupConfigs)
  | queueName :: rest =>
      r ← invoke (GetGroupConfig groupName queueName);
      match r with
      | Err err => Ret (Err (Trace err))
      | Ok (Some config) =>
          lookupQueuesOf groupName rest (groupConfigs ++ [lookupGroupConfig config])
      | Ok None =>
          _ ← invoke (Warnf ("config is nil group:" +:+ groupName
                               +:+ ", queue:" +:+ queueName));
          lookupQueuesOf groupName rest groupConfigs
      end
  end.

(** The loop over the group map, in [LookupGroup]'s first branch. *)
Fixpoint lookupGroups (groupMap : namesMap) (groupConfigs : list GroupConfig.t)
    (groupInfos : list GroupInfo.t) : Prog (list GroupInfo.t * option error) :=
  match groupMap with
  | [] => Ret (groupInfos, None)
  | (groupName, queueNames) :: rest =>
      r ← lookupQueuesOf groupName queueNames groupConfigs;
      match r with
      | Err err => Ret (groupInfos, Some err)
      | Ok groupConfigs =>
          lookupGroups rest groupConfigs
            (groupInfos ++ [ {| GroupInfo.Group := groupName;
                                GroupInfo.Queues := groupConfigs |} ])
      end
  end.

Definition LookupGroup (q : queueImp) (group : string)
  : Prog (list GroupInfo.t * option error) :=
  let groupInfos : list GroupInfo.t := [] in
  let groupConfigs : list GroupConfig.t := [] in
  if String.eqb group "" then
    m ← invoke GetGroupMap;
    match m with
    | Err err => Ret (groupInfos, Some (Trace err))
    | Ok groupMap => lookupGroups groupMap groupConfigs groupInfos
    end
  else
    m ← invoke GetGroupMap;
    match m with
    | Err err => Ret (groupInfos, Some (Trace err))
    | Ok groupMap =>
        match namesMap_lookup groupMap group with
        | None => Ret (groupInfos, None)
        | Some queueNames =>
            r ← lookupQueuesOf group queueNames groupConfigs;
            match r with
            | Err err => Ret (groupInfos, Some err)
            | Ok groupConfigs =>
                Ret (groupInfos ++ [ {| GroupInfo.Group := group;
                                        GroupInfo.Queues := groupConfigs |} ],
                     None)
            end
        end
    end.

(** [GetSingleGroup] hands back the metadata manager's pair as it is. *)
Definition GetSingleGroup (q : queueImp) (group queue : string)
  : Prog (result (option GroupConfig.t)) :=
  r ← invoke (ExistTopic queue true);
  match r with
  | Err err => Ret (Err (Trace err))
  | Ok false => Ret (Err (NotFoundf ("GetSingleGroup queue:" +:+ queue +:+ " ")))
  | Ok true => invoke (GetGroupConfig group queue)
  end.

Definition SendMsg (q : queueImp) (queue group : string) (data : bytes)
  : Prog (option error) :=
  r ← invoke (ExistTopic queue false);
  match r with
  | Err err => Ret (Some (Trace err))
  | Ok false => Ret (Some (NotFoundf ("SendMsg queue:" +:+ queue +:+ " ")))
  | Ok true =>
      e ← invoke (Send queue data);
      match e with
      | Some err => Ret (Some (Trace err))
      | None =>
          _ ← invoke (StatisticSend queue group 1);
          Ret None
      end
  end.

(** [ReceiveMsg] is the one method that writes to the facade: it returns the
    facade with the session cache as the call leaves it.  The embedding is of
    one caller at a time, for whom [q.mu] is free at [Lock]. *)
Definition ReceiveMsg (q : queueImp) (queue group : string)
  : Prog (result bytes * queueImp) :=
  r ← invoke (ExistTopic queue false);
  match r with
  | Err err => Ret (Err (Trace err), q)
  | Ok false =>
      Ret (Err (NotFoundf ("ReceiveMsg queue:" +:+ queue +:+ " ")), q)
  | Ok true =>
      let id := consumerId queue group in
      let receive (consumer : Consumer) (q : queueImp) :=
        _ ← invoke Unlock;
        d ← invoke (Recv consumer);
        match d with
        | Err err => Ret (Err (Trace err), q)
        | Ok data =>
            _ ← invoke (StatisticReceive queue group 1);
            Ret (Ok data, q)
        end in
      _ ← invoke Lock;
      match consumerMap q !! id with
      | Some consumer => receive consumer q
      | None =>
          n ← invoke (NewConsumer
                        (Split_comma (Config.KafkaBrokerAddr (conf q)))
                        queue group);
          match n with
          | Err err =>
              _ ← invoke Unlock;
              Ret (Err (Trace err), q)
          | Ok consumer =>
              receive consumer
                {| conf := conf q;
                   consumerMap := <[id := consumer]> (consumerMap q) |}
          end
      end
  end.

Definition AckMsg (q : queueImp) (queue group : string) : Prog (option error) :=
  Ret (Some (NotImplementedf "ack")).

Definition GetSendMetrics (q : queueImp) (queue group : string)
    (start stop intervalnum : Z) : Prog (result MetricsObj) :=
  r ← invoke (ExistTopic queue true);
  match r with
  | Err err => Ret (Err (Trace err))
  | Ok false => Ret (Err (NotFoundf ("GetSendMetrics queue:" +:+ queue +:+ " ")))
  | Ok true => invoke (MonitorGetSendMetrics queue group start stop intervalnum)
  end.

Definition GetReceiveMetrics (q : queueImp) (queue group : string)
    (start stop intervalnum : Z) : Prog (result MetricsObj) :=
  r ← invoke (ExistTopic queue true);
  match r with
  | Err err => Ret (Err (Trace err))
  | Ok false =>
      Ret (Err (NotFoundf ("GetReceiveMetrics queue:" +:+ queue +:+ " ")))
  | Ok true => invoke (MonitorGetReceiveMetrics queue group start stop intervalnum)
  end.

(** ** What a run did, read off its trace *)

(** The registry existence checks of a run: topic and refresh flag. *)
Fixpoint existChecks (tr : list event) : list (string * bool) :=
  match tr with
  | [] => []
  | Ev c _ :: tr' =>
      match c with
      | ExistTopic topic refresh => (topic, refresh) :: existChecks tr'
      | _ => existChecks tr'
      end
  end.

(** The calls that write to one of the two stores. *)
Definition writes {R : Type} (c : call R) : bool :=
  match c with
  | CreateTopic _ _ _ _ | DeleteTopic _ _ | AddQueue _ | DelQueue _
  | AddGroupConfig _ _ _ _ _ _ | UpdateGroupConfig _ _ _ _ _ _
  | DeleteGroupConfig _ _ => true
  | _ => false
  end.

(** The calls on the extended-metadata manager. *)
Definition onExtendManager {R : Type} (c : call R) : bool :=
  match c with
  | ExistQueue _ | AddQueue _ | DelQueue _ | QueueCreateTime _
  | GetQueueMap | GetGroupMap | GetGroupConfig _ _
  | AddGroupConfig _ _ _ _ _ _ | UpdateGroupConfig _ _ _ _ _ _
  | DeleteGroupConfig _ _ => true
  | _ => false
  end.

Definition eventIs (P : forall R : Type, call R -> bool) (e : event) : bool :=
  match e with Ev c _ => P _ c end.

(** The sessions a run constructed for a cache key. *)
Definition constructedFor (id : string) (e : event) : bool :=
  match e with
  | Ev c r =>
      match c in call R return R -> bool with
      | NewConsumer _ topic group =>
          fun r => match r with
                   | Ok _ => String.eqb (consumerId topic group) id
                   | Err _ => false
                   end
      | _ => fun _ => false
      end r
  end.

Definition constructions (id : string) (tr : list event) : nat :=
  length (List.filter (constructedFor id) tr).

(** The stored records the metadata manager handed out in a run. *)
Fixpoint configsRead (tr : list event) : list GroupConfig.t :=
  match tr with
  | [] => []
  | Ev c r :: tr' =>
      match c in call R return R -> list GroupConfig.t with
      | GetGroupConfig _ _ =>
          fun r => match r with
                   | Ok (Some config) => config :: configsRead tr'
                   | _ => configsRead tr'
                   end
      | _ => fun _ => configsRead tr'
      end r
  end.

(** ** The collaborators, modelled *)

Module Ref.

(** Modelled from the spec: the four external collaborators of section 6
    (kafka.Manager, kafka.ExtendManager, kafka.Producer with kafka.Consumer,
    metrics.Monitor), whose code is not part of [queue_imp.go].  The Broker
    Registry holds the topics with their layout; its client answers a
    non-refreshing existence check from a cached view and replaces that view
    on a forced refresh.  The Extended Metadata Store holds the queue records
    with their creation times and the group records.  The Message Transport
    keeps the produced messages per queue and one read position per
    (queue, group); it is reachable or not.  The Metrics Recorder keeps the
    counted events with their times. *)
Record world : Type := {
  topics : gmap string (Z * Z);
  cached : gset string;
  queues : list (string * Z);
  configs : list GroupConfig.t;
  clock : Z;
  transportUp : bool;
  produced : list (string * bytes);
  sessions : list (string * string);
  consumed : gmap (string * string) nat;
  sent : list (Z * (string * string) * Z);
  received : list (Z * (string * string) * Z)
}.

Definition empty : world :=
  {| topics := ∅; cached := ∅; queues := []; configs := []; clock := 0;
     transportUp := true; produced := []; sessions := []; consumed := ∅;
     sent := []; received := [] |}.

Definition hasTopic (w : world) (topic : string) : bool :=
  bool_decide (is_Some (topics w !! topic)).

Definition hasQueue (w : world) (queue : string) : bool :=
  existsb (fun r => String.eqb r.1 queue) (queues w).

Definition isConfig (group queue : string) (c : GroupConfig.t) : bool :=
  String.eqb (GroupConfig.Group c) group && String.eqb (GroupConfig.Queue c) queue.

Definition findConfig (w : world) (group queue : string) : option GroupConfig.t :=
  find (isConfig group queue) (configs w).

Definition groupsOf (w : world) (queue : string) : list string :=
  map GroupConfig.Group
    (List.filter (fun c => String.eqb (GroupConfig.Queue c) queue) (configs w)).

Definition queuesOf (w : world) (group : string) : list string :=
  map GroupConfig.Queue
    (List.filter (fun c => String.eqb (GroupConfig.Group c) group) (configs w)).

Fixpoint distinct (l : list string) : list string :=
  match l with
  | [] => []
  | x :: l' => x :: List.filter (fun y => negb (String.eqb x y)) (distinct l')
  end.

Definition messagesOf (w : world) (queue : string) : list bytes :=
  map snd (List.filter (fun m => String.eqb m.1 queue) (produced w)).

(** The counter of a (queue, group): the sum of its counted events. *)
Definition counter (obs : list (Z * (string * string) * Z)) (queue group : string) : Z :=
  fold_right Z.add 0
    (map snd (List.filter (fun o => String.eqb o.1.2.1 queue
                                    && String.eqb o.1.2.2 group) obs)).

Definition bucket (obs : list (Z * (string * string) * Z)) (queue group : string)
    (lo hi : Z) : Z :=
  counter (List.filter (fun o => (lo <=? o.1.1)%Z && (o.1.1 <? hi)%Z) obs) queue group.

Definition buckets (obs : list (Z * (string * string) * Z)) (queue group : string)
    (start stop intervalnum : Z) : MetricsObj :=
  let width := (stop - start) / intervalnum in
  map (fun i => bucket obs queue group (start + Z.of_nat i * width)
                  (start + (Z.of_nat i + 1) * width))
      (seq 0 (Z.to_nat intervalnum)).

Definition setCached (w : world) (v : gset string) : world :=
  {| topics := topics w; cached := v; queues := queues w; configs := configs w;
     clock := clock w; transportUp := transportUp w; produced := produced w;
     sessions := sessions w; consumed := consumed w; sent := sent w;
     received := received w |}.

Definition setTopics (w : world) (v : gmap string (Z * Z)) : world :=
  {| topics := v; cached := cached w; queues := queues w; configs := configs w;
     clock := clock w; transportUp := transportUp w; produced := produced w;
     sessions := sessions w; consumed := consumed w; sent := sent w;
     received := received w |}.

Definition setQueues (w : world) (v : list (string * Z)) : world :=
  {| topics := topics w; cached := cached w; queues := v; configs := configs w;
     clock := clock w; transportUp := transportUp w; produced := produced w;
     sessions := sessions w; consumed := consumed w; sent := sent w;
     received := received w |}.

Definition setConfigs (w : world) (v : list GroupConfig.t) : world :=
  {| topics := topics w; cached := cached w; queues := queues w; configs := v;
     clock := clock w; transportUp := transportUp w; produced := produced w;
     sessions := sessions w; consumed := consumed w; sent := sent w;
     received := received w |}.

Definition setProduced (w : world) (v : list (string * bytes)) : world :=
  {| topics := topics w; cached := cached w; queues := queues w;
     configs := configs w; clock := clock w; transportUp := transportUp w;
     produced := v; sessions := sessions w; consumed := consumed w;
     sent := sent w; received := received w |}.

Definition setSessions (w : world) (v : list (string * string)) : world :=
  {| topics := topics w; cached := cached w; queues := queues w;
     configs := configs w; clock := clock w; transportUp := transportUp w;
     produced := produced w; sessions := v; consumed := consumed w;
     sent := sent w; received := received w |}.

Definition setConsumed (w : world) (v : gmap (string * string) nat) : world :=
  {| topics := topics w; cached := cached w; queues := queues w;
     configs := configs w; clock := clock w; transportUp := transportUp w;
     produced := produced w; sessions := sessions w; consumed := v;
     sent := sent w; received := received w |}.

Definition setSent (w : world) (v : list (Z * (string * string) * Z)) : world :=
  {| topics := topics w; cached := cached w; queues := queues w;
     configs := configs w; clock := clock w; transportUp := transportUp w;
     produced := produced w; sessions := sessions w; consumed := consumed w;
     sent := v; received := received w |}.

Definition setReceived (w : world) (v : list (Z * (string * string) * Z)) : world :=
  {| topics := topics w; cached := cached w; queues := queues w;
     configs := configs w; clock := clock w; transportUp := transportUp w;
     produced := produced w; sessions := sessions w; consumed := consumed w;
     sent := sent w; received := v |}.

Definition down : error := Upstream "transport unreachable".

(** Modelled from the spec: the answers of the collaborators, by the
    interfaces of section 6 (the logger and the mutex of the one caller
    answer and change nothing).  A forced refresh replaces the client's cached
    view; topics and queue records are unique by name; adding a group record
    rejects an existing one, updating and deleting need one; a session is
    opened on an existing topic only.  A receive with nothing left to
    deliver, which blocks in the transport, is answered with an error. *)
Definition handle : handler world :=
  fun R c =>
    match c in call R return world -> R * world with
    | ExistTopic topic true =>
        fun w => (Ok (hasTopic w topic), setCached w (dom (topics w)))
    | ExistTopic topic false =>
        fun w => (Ok (bool_decide (topic ∈ cached w)), w)
    | CreateTopic topic replications partitions _ =>
        fun w =>
          if hasTopic w topic then (Some (AlreadyExists topic), w)
          else (None, setTopics w (<[topic := (replications, partitions)]> (topics w)))
    | DeleteTopic topic _ =>
        fun w =>
          if hasTopic w topic then (None, setTopics w (delete topic (topics w)))
          else (Some (NotFound topic), w)
    | ExistQueue queue => fun w => (Ok (hasQueue w queue), w)
    | AddQueue queue =>
        fun w =>
          if hasQueue w queue then (Some (AlreadyExists queue), w)
          else (None, setQueues w (queues w ++ [(queue, clock w)]))
    | DelQueue queue =>
        fun w =>
          if hasQueue w queue
          then (None, setQueues w
                        (List.filter (fun r => negb (String.eqb r.1 queue)) (queues w)))
          else (Some (NotFound queue), w)
    | QueueCreateTime queue =>
        fun w =>
          match find (fun r => String.eqb r.1 queue) (queues w) with
          | Some r => (Ok r.2, w)
          | None => (Err (NotFound queue), w)
          end
    | GetQueueMap =>
        fun w => (Ok (map (fun r => (r.1, groupsOf w r.1)) (queues w)), w)
    | GetGroupMap =>
        fun w =>
          (Ok (map (fun g => (g, queuesOf w g))
                 (distinct (map GroupConfig.Group (configs w)))), w)
    | GetGroupConfig group queue => fun w => (Ok (findConfig w group queue), w)
    | AddGroupConfig group queue write read url ips =>
        fun w =>
          match findConfig w group queue with
          | Some _ => (Some (AlreadyExists group), w)
          | None =>
              (None, setConfigs w
                       (configs w ++ [GroupConfig.Build group queue write read url ips]))
          end
    | UpdateGroupConfig group queue write read url ips =>
        fun w =>
          match findConfig w group queue with
          | Some _ =>
              (None, setConfigs w
                       (map (fun c => if isConfig group queue c
                                      then GroupConfig.Build group queue write read url ips
                                      else c) (configs w)))
          | None => (Some (NotFound group), w)
          end
    | DeleteGroupConfig group queue =>
        fun w =>
          match findConfig w group queue with
          | Some _ =>
              (None, setConfigs w
                       (List.filter (fun c => negb (isConfig group queue c)) (configs w)))
          | None => (Some (NotFound group), w)
          end
    | Send topic data =>
        fun w =>
          if transportUp w then (None, setProduced w (produced w ++ [(topic, data)]))
          else (Some down, w)
    | NewConsumer _ topic group =>
        fun w =>
          if negb (transportUp w) then (Err down, w)
          else if hasTopic w topic
          then (Ok (length (sessions w)), setSessions w (sessions w ++ [(topic, group)]))
          else (Err (NotFound topic), w)
    | Recv consumer =>
        fun w =>
          if negb (transportUp w) then (Err down, w)
          else match sessions w !! consumer with
               | None => (Err (Upstream "no such session"), w)
               | Some key =>
                   match messagesOf w key.1 !! (consumed w !!! key) with
                   | Some data =>
                       (Ok data, setConsumed w (<[key := S (consumed w !!! key)]> (consumed w)))
                   | None => (Err (Upstream "nothing to receive"), w)
                   end
               end
    | StatisticSend queue group n =>
        fun w => (tt, setSent w (sent w ++ [(clock w, (queue, group), n)]))
    | StatisticReceive queue group n =>
        fun w => (tt, setReceived w (received w ++ [(clock w, (queue, group), n)]))
    | MonitorGetSendMetrics queue group start stop intervalnum =>
        fun w => (Ok (buckets (sent w) queue group start stop intervalnum), w)
    | MonitorGetReceiveMetrics queue group start stop intervalnum =>
        fun w => (Ok (buckets (received w) queue group start stop intervalnum), w)
    | Warnf _ => fun w => (tt, w)
    | Lock => fun w => (tt, w)
    | Unlock => fun w => (tt, w)
    end.

End Ref.

(** ** The runs the design allows *)

(** The runs of [Create]: the registry is asked first, with a forced
    refresh; then the metadata store; then the metadata record is written,
    then the topic is created.  A failed step ends the run with its error,
    and nothing follows the creation of the topic, failed or not. *)
Inductive CreateRun (q : queueImp) (queue : string)
  : list event -> option error -> Prop :=
| CreateRun_registry_fails err :
    CreateRun q queue [Ev (ExistTopic queue true) (Err err)] (Some err)
| CreateRun_in_registry msg :
    CreateRun q queue [Ev (ExistTopic queue true) (Ok true)]
      (Some (AlreadyExists msg))
| CreateRun_metadata_fails err :
    CreateRun q queue
      [Ev (ExistTopic queue true) (Ok false); Ev (ExistQueue queue) (Err err)]
      (Some err)
| CreateRun_in_metadata msg :
    CreateRun q queue
      [Ev (ExistTopic queue true) (Ok false); Ev (ExistQueue queue) (Ok true)]
      (Some (AlreadyExists msg))
| CreateRun_record_fails err :
    CreateRun q queue
      [Ev (ExistTopic queue true) (Ok false); Ev (ExistQueue queue) (Ok false);
       Ev (AddQueue queue) (Some err)]
      (Some err)
| CreateRun_written answer :
    CreateRun q queue
      [Ev (ExistTopic queue true) (Ok false); Ev (ExistQueue queue) (Ok false);
       Ev (AddQueue queue) None;
       Ev (CreateTopic queue (Config.KafkaReplications (conf q))
             (Config.KafkaPartitions (conf q)) (Config.KafkaZKAddr (conf q)))
          answer]
      answer.

(** The runs of [Delete], the mirror of [Create]'s. *)
Inductive DeleteRun (q : queueImp) (queue : string)
  : list event -> option error -> Prop :=
| DeleteRun_registry_fails err :
    DeleteRun q queue [Ev (ExistTopic queue true) (Err err)] (Some err)
| DeleteRun_not_in_registry msg :
    DeleteRun q queue [Ev (ExistTopic queue true) (Ok false)]
      (Some (NotFound msg))
| DeleteRun_metadata_fails err :
    DeleteRun q queue
      [Ev (ExistTopic queue true) (Ok true); Ev (ExistQueue queue) (Err err)]
      (Some err)
| DeleteRun_not_in_metadata msg :
    DeleteRun q queue
      [Ev (ExistTopic queue true) (Ok true); Ev (ExistQueue queue) (Ok false)]
      (Some (NotFound msg))
| DeleteRun_record_fails err :
    DeleteRun q queue
      [Ev (ExistTopic queue true) (Ok true); Ev (ExistQueue queue) (Ok true);
       Ev (DelQueue queue) (Some err)]
      (Some err)
| DeleteRun_deleted answer :
    DeleteRun q queue
      [Ev (ExistTopic queue true) (Ok true); Ev (ExistQueue queue) (Ok true);
       Ev (DelQueue queue) None;
       Ev (DeleteTopic queue (Config.KafkaZKAddr (conf q))) answer]
      answer.

(** The runs of [SendMsg] on a queue the lenient check finds: the payload is
    produced under the queue's name, and the send of (queue, group) is
    counted once exactly when the produce succeeded. *)
Inductive SendRun (queue group : string) (data : bytes)
  : list event -> option error -> Prop :=
| SendRun_produced :
    SendRun queue group data
      [Ev (ExistTopic queue false) (Ok true); Ev (Send queue data) None;
       Ev (StatisticSend queue group 1) tt]
      None
| SendRun_failed err :
    SendRun queue group data
      [Ev (ExistTopic queue false) (Ok true); Ev (Send queue data) (Some err)]
      (Some err).

(** What follows the lookup-or-create step of [ReceiveMsg] on the session
    [consumer]: the lock is released, then one receive, counted once when it
    delivered. *)
Inductive ReceiveOn (queue group : string) (consumer : Consumer)
  : list event -> result bytes -> Prop :=
| ReceiveOn_failed err :
    ReceiveOn queue group consumer
      [Ev Unlock tt; Ev (Recv consumer) (Err err)] (Err err)
| ReceiveOn_delivered data :
    ReceiveOn queue group consumer
      [Ev Unlock tt; Ev (Recv consumer) (Ok data);
       Ev (StatisticReceive queue group 1) tt]
      (Ok data).

(** The runs of [ReceiveMsg]: after the lenient check and under the lock, a
    cached session is used as it is; with none cached one is constructed,
    and it enters the cache under the key of (queue, group) only if the
    construction succeeded.  The last component is the facade the call
    leaves. *)
Inductive ReceiveRun (q : queueImp) (queue group : string)
  : list event -> result bytes -> queueImp -> Prop :=
| ReceiveRun_registry_fails err :
    ReceiveRun q queue group [Ev (ExistTopic queue false) (Err err)] (Err err) q
| ReceiveRun_not_in_registry msg :
    ReceiveRun q queue group [Ev (ExistTopic queue false) (Ok false)]
      (Err (NotFound msg)) q
| ReceiveRun_reused consumer tr answer :
    consumerMap q !! consumerId queue group = Some consumer ->
    ReceiveOn queue group consumer tr answer ->
    ReceiveRun q queue group
      (Ev (ExistTopic queue false) (Ok true) :: Ev Lock tt :: tr) answer q
| ReceiveRun_construction_fails err :
    consumerMap q !! consumerId queue group = None ->
    ReceiveRun q queue group
      [Ev (ExistTopic queue false) (Ok true); Ev Lock tt;
       Ev (NewConsumer (Split_comma (Config.KafkaBrokerAddr (conf q))) queue group)
          (Err err);
       Ev Unlock tt]
      (Err err) q
| ReceiveRun_constructed consumer tr answer :
    consumerMap q !! consumerId queue group = None ->
    ReceiveOn queue group consumer tr answer ->
    ReceiveRun q queue group
      (Ev (ExistTopic queue false) (Ok true) :: Ev Lock tt
       :: Ev (NewConsumer (Split_comma (Config.KafkaBrokerAddr (conf q))) queue group)
             (Ok consumer)
       :: tr)
      answer
      {| conf := conf q;
         consumerMap := <[consumerId queue group := consumer]> (consumerMap q) |}.

(** Whether the cache holds a session for a key, as a count. *)
Definition cachedFor (q : queueImp) (id : string) : nat :=
  match consumerMap q !! id with Some _ => 1%nat | None => 0%nat end.

(** A sequence of [ReceiveMsg] calls on one facade, each on the cache the
    one before left. *)
Fixpoint receiveAll (q : queueImp) (calls : list (string * string))
  : Prog (list (result bytes) * queueImp) :=
  match calls with
  | [] => Ret ([], q)
  | (queue, group) :: rest =>
      x ← ReceiveMsg q queue group;
      y ← receiveAll x.2 rest;
      Ret (x.1 :: y.1, y.2)
  end.

(** A returned config that is the copy, by one of the two struct literals,
    of a record the metadata manager handed out. *)
Definition copiedBy (copy : GroupConfig.t -> GroupConfig.t)
    (read : list GroupConfig.t) (gc : GroupConfig.t) : Prop :=
  exists config, In config read /\ gc = copy config.

(** A program that never calls the extended-metadata manager. *)
Inductive metadataFree {A : Type} : Prog A -> Prop :=
| metadataFree_Ret a : metadataFree (Ret a)
| metadataFree_Do R (c : call R) k :
    onExtendManager c = false ->
    (forall r, metadataFree (k r)) ->
    metadataFree (Do c k).

(** Two handlers that cannot be told apart through the calls outside the
    extended-metadata manager: from related states they give the same answer
    and reach related states. *)
Definition alike {W1 W2 : Type} (h1 : handler W1) (h2 : handler W2)
    (related : W1 -> W2 -> Prop) : Prop :=
  forall (R : Type) (c : call R) (w1 : W1) (w2 : W2),
    onExtendManager c = false ->
    related w1 w2 ->
    (h1 R c w1).1 = (h2 R c w2).1 /\ related (h1 R c w1).2 (h2 R c w2).2.

(** Two reference worlds that differ at most in the group records. *)
Definition sameButConfigs (w1 w2 : Ref.world) : Prop :=
  Ref.setConfigs w1 [] = Ref.setConfigs w2 [].

(** A queue with a record in exactly one of the two stores. *)
Definition inOneStoreOnly (w : Ref.world) (queue : string) : Prop :=
  Ref.hasTopic w queue <> Ref.hasQueue w queue.

(** ** A service to run *)

Module Example.

Definition config : Config.t :=
  {| Config.KafkaBrokerAddr := "b1:9092,b2:9092";
     Config.KafkaZKAddr := "zk:2181";
     Config.KafkaReplications := 2;
     Config.KafkaPartitions := 16 |}.

Definition service : queueImp := newQueue config.

Definition after {A : Type} (p : Prog A) (w : Ref.world) : Ref.world :=
  final (run Ref.handle p w).

Definition payload : bytes := [Byte.x68; Byte.x69].

(** "q1" created on the empty service. *)
Definition created : Ref.world := after (Create service "q1") Ref.empty.

(** "q1" created, then deleted. *)
Definition deleted : Ref.world := after (Delete service "q1") created.

(** "q1" with group "g1" and "q2" with group "g2". *)
Definition twoQueues : Ref.world :=
  after (AddGroup service "g2" "q2" true true "http://g2" [])
    (after (Create service "q2")
       (after (AddGroup service "g1" "q1" true false "http://g1" ["10.0.0.1"])
          created)).

(** A topic "q1" with no metadata record. *)
Definition topicOnly : Ref.world :=
  Ref.setTopics Ref.empty {[ "q1" := (2, 16) ]}.

(** A metadata record "q1" with no topic. *)
Definition recordOnly : Ref.world := Ref.setQueues Ref.empty [("q1", 0)].

(** "q1" created and seen by the registry client, with one message. *)
Definition withMessage : Ref.world :=
  after (SendMsg service "q1" "g1" payload) (after (Update service "q1") created).

(** [withMessage] with the group "g1" denied both directions. *)
Definition denied : Ref.world :=
  Ref.setConfigs withMessage
    [ {| GroupConfig.Group := "g1"; GroupConfig.Queue := "q1";
         GroupConfig.Write := false; GroupConfig.Read := false;
         GroupConfig.Url := ""; GroupConfig.Ips := [] |} ].

(** [withMessage] with the transport unreachable. *)
Definition unreachable : Ref.world :=
  {| Ref.topics := Ref.topics withMessage; Ref.cached := Ref.cached withMessage;
     Ref.queues := Ref.queues withMessage; Ref.configs := Ref.configs withMessage;
     Ref.clock := Ref.clock withMessage; Ref.transportUp := false;
     Ref.produced := Ref.produced withMessage;
     Ref.sessions := Ref.sessions withMessage;
     Ref.consumed := Ref.consumed withMessage; Ref.sent := Ref.sent withMessage;
     Ref.received := Ref.received withMessage |}.

End Example.

(** ** Further runs and observers *)

(** The runs of [Update]: the forced-refresh check and nothing else. *)
Inductive UpdateRun (queue : string) : list event -> option error -> Prop :=
| UpdateRun_registry_fails err :
    UpdateRun queue [Ev (ExistTopic queue true) (Err err)] (Some err)
| UpdateRun_not_in_registry msg :
    UpdateRun queue [Ev (ExistTopic queue true) (Ok false)] (Some (NotFound msg))
| UpdateRun_found :
    UpdateRun queue [Ev (ExistTopic queue true) (Ok true)] None.

(** The runs of [AddGroup], [UpdateGroup] and [DeleteGroup]: the
    forced-refresh check on the queue, then the one write [write] to the
    metadata store, whose answer is the method's. *)
Inductive GroupWriteRun (queue : string) (write : call (option error))
  : list event -> option error -> Prop :=
| GroupWriteRun_registry_fails err :
    GroupWriteRun queue write [Ev (ExistTopic queue true) (Err err)] (Some err)
| GroupWriteRun_not_in_registry msg :
    GroupWriteRun queue write [Ev (ExistTopic queue true) (Ok false)]
      (Some (NotFound msg))
| GroupWriteRun_written answer :
    GroupWriteRun queue write
      [Ev (ExistTopic queue true) (Ok true); Ev write answer] answer.

(** The runs of [GetSingleGroup], [GetSendMetrics] and [GetReceiveMetrics]:
    the forced-refresh check on the queue, then the one call [ask], whose
    answer is handed back as it is. *)
Inductive AskRun {A : Type} (queue : string) (ask : call (result A))
  : list event -> result A -> Prop :=
| AskRun_registry_fails err :
    AskRun queue ask [Ev (ExistTopic queue true) (Err err)] (Err err)
| AskRun_not_in_registry msg :
    AskRun queue ask [Ev (ExistTopic queue true) (Ok false)] (Err (NotFound msg))
| AskRun_answered answer :
    AskRun queue ask [Ev (ExistTopic queue true) (Ok true); Ev ask answer] answer.

(** The runs of [Lookup] with both names given. *)
Inductive LookupOneRun (queue group : string)
  : list event -> list QueueInfo.t * option error -> Prop :=
| LookupOneRun_config_fails err :
    LookupOneRun queue group [Ev (GetGroupConfig group queue) (Err err)]
      ([], Some err)
| LookupOneRun_time_fails config err :
    LookupOneRun queue group
      [Ev (GetGroupConfig group queue) (Ok config);
       Ev (QueueCreateTime queue) (Err err)]
      ([], Some err)
| LookupOneRun_found config ctime :
    LookupOneRun queue group
      [Ev (GetGroupConfig group queue) (Ok config);
       Ev (QueueCreateTime queue) (Ok ctime)]
      ([ {| QueueInfo.Queue := queue; QueueInfo.Ctime := ctime;
            QueueInfo.Length := 0;
            QueueInfo.Groups := match config with
                                | Some config => [lookupConfig config]
                                | None => []
                                end |} ],
       None).

(** The creation times a run was answered: queue asked, time answered. *)
Fixpoint createTimes (tr : list event) : list (string * Z) :=
  match tr with
  | [] => []
  | Ev c r :: tr' =>
      match c in call R return R -> list (string * Z) with
      | QueueCreateTime queue =>
          fun r => match r with
                   | Ok ctime => (queue, ctime) :: createTimes tr'
                   | Err _ => createTimes tr'
                   end
      | _ => fun _ => createTimes tr'
      end r
  end.

(** The sends and receives a run counted: queue, group, count. *)
Fixpoint sendCounts (tr : list event) : list (string * string * Z) :=
  match tr with
  | [] => []
  | Ev c _ :: tr' =>
      match c with
      | StatisticSend queue group n => (queue, group, n) :: sendCounts tr'
      | _ => sendCounts tr'
      end
  end.

Fixpoint receiveCounts (tr : list event) : list (string * string * Z) :=
  match tr with
  | [] => []
  | Ev c _ :: tr' =>
      match c with
      | StatisticReceive queue group n => (queue, group, n) :: receiveCounts tr'
      | _ => receiveCounts tr'
      end
  end.

(** The broker address lists a run opened sessions with. *)
Fixpoint brokerLists (tr : list event) : list (list string) :=
  match tr with
  | [] => []
  | Ev c _ :: tr' =>
      match c with
      | NewConsumer brokerAddrs _ _ => brokerAddrs :: brokerLists tr'
      | _ => brokerLists tr'
      end
  end.

(** The reads of the metadata store that [Lookup] and [LookupGroup] make,
    and the logger. *)
Definition readsMetadata {R : Type} (c : call R) : bool :=
  match c with
  | GetQueueMap | GetGroupMap | GetGroupConfig _ _ | QueueCreateTime _
  | Warnf _ => true
  | _ => false
  end.

(** The facade's lock along a trace, from [held]: [None] when the trace
    locks a held lock, unlocks a free one, constructs a session outside the
    lock or receives under it; otherwise whether the lock is held at the
    end. *)
Fixpoint lockAlong (held : bool) (tr : list event) : option bool :=
  match tr with
  | [] => Some held
  | Ev c _ :: tr' =>
      match c with
      | Lock => if held then None else lockAlong true tr'
      | Unlock => if held then lockAlong false tr' else None
      | NewConsumer _ _ _ => if held then lockAlong held tr' else None
      | Recv _ => if held then None else lockAlong held tr'
      | _ => lockAlong held tr'
      end
  end.

(** The calls that read or write a group record. *)
Definition onGroupRecords {R : Type} (c : call R) : bool :=
  match c with
  | GetGroupConfig _ _ | AddGroupConfig _ _ _ _ _ _
  | UpdateGroupConfig _ _ _ _ _ _ | DeleteGroupConfig _ _ => true
  | _ => false
  end.

(** [strings.Join(l, ",")] *)
Fixpoint Join_comma (l : list string) : string :=
  match l with
  | [] => ""
  | [s] => s
  | s :: l' => s +:+ "," +:+ Join_comma l'
  end.

Fixpoint hasChar (a : ascii) (s : string) : bool :=
  match s with
  | EmptyString => false
  | String b s' => Ascii.eqb a b || hasChar a s'
  end.

(** A facade that holds one session, opened for queue "a@b" and group "c",
    and a reference world whose registry client has seen a topic "a". *)
Definition sharing : queueImp :=
  {| conf := Example.config;
     consumerMap := {[ consumerId "a@b" "c" := 0%nat ]} |}.

Definition seenA : Ref.world := Ref.setCached Ref.empty {[ "a" ]}.

(** A method's answer that is a not-found error. *)
Definition failsNotFound (e : option error) : Prop :=
  exists msg, e = Some (NotFound msg).

Definition errsNotFound {A : Type} (r : result A) : Prop :=
  exists msg, r = Err (NotFound msg).

(** A topic "q1" with no queue record, after [AddGroup] wrote a record for
    its group "g1". *)
Definition topicWithGroup : Ref.world :=
  Example.after (AddGroup Example.service "g1" "q1" true true "" [])
    Example.topicOnly.

(** A topic "q1" with no queue record, seen by the registry client and sent
    one message. *)
Definition topicInUse : Ref.world :=
  Example.after (SendMsg Example.service "q1" "g1" Example.payload)
    (Example.after (Update Example.service "q1") Example.topicOnly).

(** * Properties *)

(** Unfold a run by one call; case on the answer of the next call. *)
Ltac simp := cbn [run mbind Prog_mbind Prog_bind invoke fst snd].

Ltac answer :=
  match goal with
  | h : handler _ |- context [?f ?R ?c ?w] =>
      constr_eq f h;
      let r := fresh "r" in let w' := fresh "w" in
      destruct (h R c w) as [r w'] eqn:?; simp
  end.

Section Runs.
Context {W : Type} (h : handler W).

Lemma run_bind {A B : Type} (p : Prog A) (f : A -> Prog B) (w : W) :
  run h (p ≫= f) w =
  let '(a, w1, t1) := run h p w in
  let '(b, w2, t2) := run h (f a) w1 in
  (b, w2, t1 ++ t2).
Proof.
  revert w. induction p as [a | R c k IH]; intros w.
  - change (run h (f a) w = let '(b, w2, t2) := run h (f a) w in (b, w2, [] ++ t2)).
    destruct (run h (f a) w) as [[b w2] t2]. reflexivity.
  - change (run h (Do c (fun r => k r ≫= f)) w =
            let '(a, w1, t1) := run h (Do c k) w in
            let '(b, w2, t2) := run h (f a) w1 in (b, w2, t1 ++ t2)).
    cbn [run]. destruct (h R c w) as [r w1]. rewrite IH.
    destruct (run h (k r) w1) as [[a w2] t1].
    destruct (run h (f a) w2) as [[b w3] t2]. reflexivity.
Qed.


Lemma Create_runs (q : queueImp) (queue : string) (w : W) :
  CreateRun q queue (trace (run h (Create q queue) w))
    (returned (run h (Create q queue) w)).
Proof.
  unfold Create, trace, returned. simp.
  answer. destruct r as [[] | err]; simp; [constructor | | constructor].
  answer. destruct r as [[] | err]; simp; [constructor | | constructor].
  answer. destruct r as [err |]; simp; [constructor |].
  answer. constructor.
Qed.

Lemma Delete_runs (q : queueImp) (queue : string) (w : W) :
  DeleteRun q queue (trace (run h (Delete q queue) w))
    (returned (run h (Delete q queue) w)).
Proof.
  unfold Delete, trace, returned. simp.
  answer. destruct r as [[] | err]; simp; [ | constructor | constructor].
  answer. destruct r as [[] | err]; simp; [ | constructor | constructor].
  answer. destruct r as [err |]; simp; [constructor |].
  answer. constructor.
Qed.

Lemma Send_runs (q : queueImp) (queue group : string) (data : bytes) (w w1 : W) :
  h _ (ExistTopic queue false) w = (Ok true, w1) ->
  SendRun queue group data (trace (run h (SendMsg q queue group data) w))
    (returned (run h (SendMsg q queue group data) w)).
Proof.
  intros H. unfold SendMsg, trace, returned. simp. rewrite H. simp.
  answer. destruct r as [err |]; simp; [constructor |].
  answer. destruct r. constructor.
Qed.

Lemma Receive_runs (q : queueImp) (queue group : string) (w : W) :
  let x := run h (ReceiveMsg q queue group) w in
  ReceiveRun q queue group (trace x) (returned x).1 (returned x).2.
Proof.
  unfold ReceiveMsg, trace, returned. simp.
  answer. destruct r as [[] | err]; simp; [ | constructor | constructor].
  answer. destruct r.
  destruct (consumerMap q !! consumerId queue group) as [consumer |] eqn:Hc; simp.
  - answer. destruct r. answer. destruct r as [data | err]; simp.
    + answer. destruct r. eapply ReceiveRun_reused; [eassumption | constructor].
    + eapply ReceiveRun_reused; [eassumption | constructor].
  - answer. destruct r as [consumer | err]; simp.
    + answer. destruct r. answer. destruct r as [data | err]; simp.
      * answer. destruct r.
        eapply ReceiveRun_constructed; [eassumption | constructor].
      * eapply ReceiveRun_constructed; [eassumption | constructor].
    + answer. destruct r. constructor; assumption.
Qed.

Lemma disagreement_answered (q : queueImp) (queue : string) (w : W) (inRegistry : bool) :
  (h _ (ExistTopic queue true) w).1 = Ok inRegistry ->
  (h _ (ExistQueue queue) (h _ (ExistTopic queue true) w).2).1 = Ok (negb inRegistry) ->
  (exists msg, returned (run h (Create q queue) w) = Some (AlreadyExists msg)) /\
  (exists msg, returned (run h (Delete q queue) w) = Some (NotFound msg)) /\
  existsb (eventIs (@writes)) (trace (run h (Create q queue) w)) = false /\
  existsb (eventIs (@writes)) (trace (run h (Delete q queue) w)) = false.
Proof.
  unfold Create, Delete, returned, trace. simp.
  destruct (h _ (ExistTopic queue true) w) as [r w1]. cbn [fst snd].
  intros -> H2. destruct inRegistry; simp;
    destruct (h _ (ExistQueue queue) w1) as [r2 w2];
    cbn [fst snd negb] in H2; subst r2; simp;
    repeat split; try reflexivity; eexists; reflexivity.
Qed.

Ltac walk :=
  repeat first
    [ answer
    | match goal with
      | |- context [match ?r with _ => _ end] => is_var r; destruct r; simp
      end ].

Lemma existChecks_strict (q : queueImp) (queue group : string)
    (write read : bool) (url : string) (ips : list string)
    (start stop intervalnum : Z) (w : W) :
  existChecks (trace (run h (Create q queue) w)) = [(queue, true)] /\
  existChecks (trace (run h (Update q queue) w)) = [(queue, true)] /\
  existChecks (trace (run h (Delete q queue) w)) = [(queue, true)] /\
  existChecks (trace (run h (AddGroup q group queue write read url ips) w))
    = [(queue, true)] /\
  existChecks (trace (run h (UpdateGroup q group queue write read url ips) w))
    = [(queue, true)] /\
  existChecks (trace (run h (DeleteGroup q group queue) w)) = [(queue, true)] /\
  existChecks (trace (run h (GetSingleGroup q group queue) w)) = [(queue, true)] /\
  existChecks (trace (run h (GetSendMetrics q queue group start stop intervalnum) w))
    = [(queue, true)] /\
  existChecks (trace (run h (GetReceiveMetrics q queue group start stop intervalnum) w))
    = [(queue, true)].
Proof.
  unfold Create, Update, Delete, AddGroup, UpdateGroup, DeleteGroup,
    GetSingleGroup, GetSendMetrics, GetReceiveMetrics, trace.
  repeat split; simp; walk; reflexivity.
Qed.

Lemma existChecks_lenient (q : queueImp) (queue group : string) (data : bytes)
    (w : W) :
  existChecks (trace (run h (SendMsg q queue group data) w)) = [(queue, false)] /\
  existChecks (trace (run h (ReceiveMsg q queue group) w)) = [(queue, false)].
Proof.
  unfold SendMsg, ReceiveMsg, trace. split; simp.
  - walk; reflexivity.
  - answer. destruct r as [[] | err]; simp; try reflexivity.
    answer. destruct r.
    destruct (consumerMap q !! consumerId queue group); simp; walk; reflexivity.
Qed.

Lemma constructions_app (id : string) (t1 t2 : list event) :
  constructions id (t1 ++ t2) = (constructions id t1 + constructions id t2)%nat.
Proof. unfold constructions. rewrite List.filter_app, length_app. reflexivity. Qed.

Lemma Receive_constructions (q : queueImp) (queue group : string) (w : W)
    (id : string) :
  let x := run h (ReceiveMsg q queue group) w in
  (constructions id (trace x) + cachedFor q id)%nat = cachedFor (returned x).2 id.
Proof.
  pose proof (Receive_runs q queue group w) as H. cbn zeta in *.
  destruct (run h (ReceiveMsg q queue group) w) as [[[a q'] w'] tr].
  unfold trace, returned in *. cbn [fst snd] in *.
  destruct H as [err | msg | consumer tr answer Hc Hon | err Hc
                 | consumer tr answer Hc Hon]; try reflexivity.
  - destruct Hon; reflexivity.
  - assert (constructions id tr = 0%nat) as Htr by (destruct Hon; reflexivity).
    unfold constructions in *. cbn [List.filter constructedFor].
    unfold cachedFor. cbn [consumerMap].
    destruct (String.eqb_spec (consumerId queue group) id) as [Heq | Hne].
    + subst id. rewrite lookup_insert_eq. cbn [length]. rewrite Htr, Hc. reflexivity.
    + rewrite lookup_insert_ne by assumption. rewrite Htr. reflexivity.
Qed.

Lemma receiveAll_constructions (calls : list (string * string)) (q : queueImp)
    (w : W) (id : string) :
  let x := run h (receiveAll q calls) w in
  (constructions id (trace x) + cachedFor q id)%nat = cachedFor (returned x).2 id.
Proof.
  revert q w. induction calls as [| [queue group] rest IH]; intros q w.
  - reflexivity.
  - cbn [receiveAll]. cbn zeta. rewrite run_bind.
    pose proof (Receive_constructions q queue group w id) as H1. cbn zeta in H1.
    destruct (run h (ReceiveMsg q queue group) w) as [[a w1] t1].
    rewrite run_bind.
    specialize (IH a.2 w1). cbn zeta in IH.
    destruct (run h (receiveAll a.2 rest) w1) as [[b w2] t2].
    unfold trace, returned in *. cbn [run fst snd] in *.
    rewrite constructions_app, app_nil_r. lia.
Qed.

End Runs.

Lemma missing_topic_refused (W : Type) (h : handler W) (q : queueImp)
    (queue group : string) (write read : bool) (url : string)
    (ips : list string) (start stop intervalnum : Z) (w : W) :
  (h _ (ExistTopic queue true) w).1 = Ok false ->
  (failsNotFound (returned (run h (Update q queue) w)) /\
   trace (run h (Update q queue) w) = [Ev (ExistTopic queue true) (Ok false)]) /\
  (failsNotFound (returned (run h (AddGroup q group queue write read url ips) w)) /\
   trace (run h (AddGroup q group queue write read url ips) w)
     = [Ev (ExistTopic queue true) (Ok false)]) /\
  (failsNotFound (returned (run h (UpdateGroup q group queue write read url ips) w)) /\
   trace (run h (UpdateGroup q group queue write read url ips) w)
     = [Ev (ExistTopic queue true) (Ok false)]) /\
  (failsNotFound (returned (run h (DeleteGroup q group queue) w)) /\
   trace (run h (DeleteGroup q group queue) w)
     = [Ev (ExistTopic queue true) (Ok false)]) /\
  (errsNotFound (returned (run h (GetSingleGroup q group queue) w)) /\
   trace (run h (GetSingleGroup q group queue) w)
     = [Ev (ExistTopic queue true) (Ok false)]) /\
  (errsNotFound
     (returned (run h (GetSendMetrics q queue group start stop intervalnum) w)) /\
   trace (run h (GetSendMetrics q queue group start stop intervalnum) w)
     = [Ev (ExistTopic queue true) (Ok false)]) /\
  (errsNotFound
     (returned (run h (GetReceiveMetrics q queue group start stop intervalnum) w)) /\
   trace (run h (GetReceiveMetrics q queue group start stop intervalnum) w)
     = [Ev (ExistTopic queue true) (Ok false)]).
Proof.
  unfold Update, AddGroup, UpdateGroup, DeleteGroup, GetSingleGroup,
    GetSendMetrics, GetReceiveMetrics, failsNotFound, errsNotFound,
    returned, trace.
  simp. destruct (h _ (ExistTopic queue true) w) as [r w1]. cbn [fst snd].
  intros ->. simp. repeat split; eexists; reflexivity.
Qed.

Section Alike.
Context {W1 W2 : Type} (h1 : handler W1) (h2 : handler W2).
Context (related : W1 -> W2 -> Prop).
Hypothesis Halike : alike h1 h2 related.

Lemma metadataFree_alike {A : Type} (p : Prog A) :
  metadataFree p ->
  forall w1 w2, related w1 w2 ->
    returned (run h1 p w1) = returned (run h2 p w2) /\
    trace (run h1 p w1) = trace (run h2 p w2) /\
    related (final (run h1 p w1)) (final (run h2 p w2)).
Proof.
  induction 1 as [a | R c k Hc Hk IH]; intros w1 w2 Hw.
  - repeat split; assumption.
  - destruct (Halike R c w1 w2 Hc Hw) as [Hr Hw']. cbn [run].
    destruct (h1 R c w1) as [r1 w1'], (h2 R c w2) as [r2 w2'].
    cbn [fst snd] in *. subst r2.
    destruct (IH r1 w1' w2' Hw') as (Ha & Ht & Hf).
    destruct (run h1 (k r1) w1') as [[a1 v1] t1].
    destruct (run h2 (k r1) w2') as [[a2 v2] t2].
    unfold returned, trace, final in *. cbn [fst snd] in *.
    subst. repeat split; assumption.
Qed.

End Alike.

Ltac metadata_free :=
  repeat first
    [ apply metadataFree_Ret
    | apply metadataFree_Do; [reflexivity | intros ?]
    | match goal with
      | |- metadataFree (match ?r with _ => _ end) => destruct r
      end ].

Lemma SendMsg_metadataFree (q : queueImp) (queue group : string) (data : bytes) :
  metadataFree (SendMsg q queue group data).
Proof. unfold SendMsg. cbn [mbind Prog_mbind Prog_bind invoke]. metadata_free. Qed.

Lemma ReceiveMsg_metadataFree (q : queueImp) (queue group : string) :
  metadataFree (ReceiveMsg q queue group).
Proof. unfold ReceiveMsg. cbn [mbind Prog_mbind Prog_bind invoke]. metadata_free. Qed.

Lemma copiedBy_more (copy : GroupConfig.t -> GroupConfig.t)
    (read more : list GroupConfig.t) (l : list GroupConfig.t) :
  Forall (copiedBy copy read) l -> Forall (copiedBy copy (read ++ more)) l.
Proof.
  intros H. eapply Forall_impl; [exact H |]. intros gc (c & Hin & ->).
  exists c. split; [apply in_or_app; left; assumption | reflexivity].
Qed.

Lemma copiedBy_map (copy : GroupConfig.t -> GroupConfig.t)
    (read new : list GroupConfig.t) :
  Forall (copiedBy copy (read ++ new)) (map copy new).
Proof.
  apply Forall_forall. intros gc Hgc. apply list_elem_of_In, in_map_iff in Hgc.
  destruct Hgc as (c & <- & Hin).
  exists c. split; [apply in_or_app; right; assumption | reflexivity].
Qed.

Lemma configsRead_app (t1 t2 : list event) :
  configsRead (t1 ++ t2) = configsRead t1 ++ configsRead t2.
Proof.
  induction t1 as [| [R c r] t1 IH]; [reflexivity |].
  destruct c; cbn [app configsRead]; try assumption.
  destruct r as [[config |] | err]; cbn [app]; congruence.
Qed.

Section Lookups.
Context {W : Type} (h : handler W).

Lemma lookupGroupsOf_out (queueName : string) (groupNames : list string) :
  forall (acc : list GroupConfig.t) (w : W) (out : list GroupConfig.t),
    returned (run h (lookupGroupsOf queueName groupNames acc) w) = Ok out ->
    out = acc ++ map lookupConfig
                   (configsRead (trace (run h (lookupGroupsOf queueName groupNames acc) w))).
Proof.
  induction groupNames as [| groupName rest IH]; intros acc w out.
  - cbn. intros [= <-]. symmetry. apply app_nil_r.
  - cbn [lookupGroupsOf]. simp. answer. destruct r as [[config |] | err]; simp.
    + specialize (IH (acc ++ [lookupConfig config]) w0 out).
      destruct (run h (lookupGroupsOf queueName rest _) w0) as [[a w1] tr].
      unfold returned, trace in *. cbn [fst snd configsRead map] in *.
      intros Ha. rewrite (IH Ha), <- app_assoc. reflexivity.
    + answer. destruct r.
      specialize (IH acc w1 out).
      destruct (run h (lookupGroupsOf queueName rest _) w1) as [[a w2] tr].
      unfold returned, trace in *. cbn [fst snd configsRead map] in *.
      exact IH.
    + unfold returned. cbn. discriminate.
Qed.

Lemma lookupQueuesOf_out (groupName : string) (queueNames : list string) :
  forall (acc : list GroupConfig.t) (w : W) (out : list GroupConfig.t),
    returned (run h (lookupQueuesOf groupName queueNames acc) w) = Ok out ->
    out = acc ++ map lookupGroupConfig
                   (configsRead (trace (run h (lookupQueuesOf groupName queueNames acc) w))).
Proof.
  induction queueNames as [| queueName rest IH]; intros acc w out.
  - cbn. intros [= <-]. symmetry. apply app_nil_r.
  - cbn [lookupQueuesOf]. simp. answer. destruct r as [[config |] | err]; simp.
    + specialize (IH (acc ++ [lookupGroupConfig config]) w0 out).
      destruct (run h (lookupQueuesOf groupName rest _) w0) as [[a w1] tr].
      unfold returned, trace in *. cbn [fst snd configsRead map] in *.
      intros Ha. rewrite (IH Ha), <- app_assoc. reflexivity.
    + answer. destruct r.
      specialize (IH acc w1 out).
      destruct (run h (lookupQueuesOf groupName rest _) w1) as [[a w2] tr].
      unfold returned, trace in *. cbn [fst snd configsRead map] in *.
      exact IH.
    + unfold returned. cbn. discriminate.
Qed.

Lemma lookupQueues_copies (queueMap : namesMap) :
  forall (acc : list GroupConfig.t) (infos : list QueueInfo.t)
         (read : list GroupConfig.t) (w : W),
    Forall (copiedBy lookupConfig read) acc ->
    Forall (fun qi => Forall (copiedBy lookupConfig read) (QueueInfo.Groups qi)) infos ->
    Forall (fun qi =>
              Forall (copiedBy lookupConfig
                        (read ++ configsRead (trace (run h (lookupQueues queueMap acc infos) w))))
                     (QueueInfo.Groups qi))
           (returned (run h (lookupQueues queueMap acc infos) w)).1.
Proof.
  assert (forall read more infos,
    Forall (fun qi => Forall (copiedBy lookupConfig read) (QueueInfo.Groups qi)) infos ->
    Forall (fun qi => Forall (copiedBy lookupConfig (read ++ more)) (QueueInfo.Groups qi)) infos)
    as Hmore.
  { intros read more infos H. eapply Forall_impl; [exact H |].
    intros qi. apply copiedBy_more. }
  induction queueMap as [| [queueName groupNames] rest IH]; intros acc infos read w Hacc Hinfos.
  - cbn. apply Hmore. assumption.
  - cbn [lookupQueues]. rewrite run_bind.
    pose proof (lookupGroupsOf_out queueName groupNames acc w) as Hout.
    destruct (run h (lookupGroupsOf queueName groupNames acc) w) as [[r w1] t1].
    unfold returned, trace in Hout. cbn [fst snd] in Hout.
    destruct r as [out | err].
    + specialize (Hout out eq_refl). simp. answer.
      assert (Forall (copiedBy lookupConfig (read ++ configsRead t1)) out) as Hout'.
      { rewrite Hout. apply Forall_app. split;
          [apply copiedBy_more; assumption | apply copiedBy_map]. }
      destruct r as [ctime | err]; simp.
      * match goal with
        | |- context [run h (lookupQueues rest out ?infos') w0] =>
            specialize (IH out infos' (read ++ configsRead t1) w0 Hout')
        end.
        destruct (run h (lookupQueues rest out _) w0) as [[a w2] t2].
        unfold returned, trace in *. cbn [fst snd] in *.
        rewrite configsRead_app. cbn [configsRead]. rewrite app_assoc.
        apply IH. apply Forall_app. split; [apply Hmore; assumption |].
        constructor; [exact Hout' | constructor].
      * unfold returned, trace. cbn [fst snd]. apply Hmore. assumption.
    + simp. unfold returned, trace. cbn [fst snd]. apply Hmore. assumption.
Qed.

Lemma lookupGroups_copies (groupMap : namesMap) :
  forall (acc : list GroupConfig.t) (infos : list GroupInfo.t)
         (read : list GroupConfig.t) (w : W),
    Forall (copiedBy lookupGroupConfig read) acc ->
    Forall (fun gi => Forall (copiedBy lookupGroupConfig read) (GroupInfo.Queues gi)) infos ->
    Forall (fun gi =>
              Forall (copiedBy lookupGroupConfig
                        (read ++ configsRead (trace (run h (lookupGroups groupMap acc infos) w))))
                     (GroupInfo.Queues gi))
           (returned (run h (lookupGroups groupMap acc infos) w)).1.
Proof.
  assert (forall read more infos,
    Forall (fun gi => Forall (copiedBy lookupGroupConfig read) (GroupInfo.Queues gi)) infos ->
    Forall (fun gi => Forall (copiedBy lookupGroupConfig (read ++ more)) (GroupInfo.Queues gi)) infos)
    as Hmore.
  { intros read more infos H. eapply Forall_impl; [exact H |].
    intros gi. apply copiedBy_more. }
  induction groupMap as [| [groupName queueNames] rest IH]; intros acc infos read w Hacc Hinfos.
  - cbn. apply Hmore. assumption.
  - cbn [lookupGroups]. rewrite run_bind.
    pose proof (lookupQueuesOf_out groupName queueNames acc w) as Hout.
    destruct (run h (lookupQueuesOf groupName queueNames acc) w) as [[r w1] t1].
    unfold returned, trace in Hout. cbn [fst snd] in Hout.
    destruct r as [out | err].
    + specialize (Hout out eq_refl).
      assert (Forall (copiedBy lookupGroupConfig (read ++ configsRead t1)) out) as Hout'.
      { rewrite Hout. apply Forall_app. split;
          [apply copiedBy_more; assumption | apply copiedBy_map]. }
      match goal with
      | |- context [run h (lookupGroups rest out ?infos') w1] =>
          specialize (IH out infos' (read ++ configsRead t1) w1 Hout')
      end.
      destruct (run h (lookupGroups rest out _) w1) as [[a w2] t2].
      unfold returned, trace in *. cbn [fst snd] in *.
      rewrite configsRead_app, app_assoc.
      apply IH. apply Forall_app. split; [apply Hmore; assumption |].
      constructor; [exact Hout' | constructor].
    + simp. unfold returned, trace. cbn [fst snd]. apply Hmore. assumption.
Qed.

Lemma Lookup_copies (q : queueImp) (queue group : string) (w : W) :
  Forall (fun qi =>
            Forall (copiedBy lookupConfig
                      (configsRead (trace (run h (Lookup q queue group) w))))
                   (QueueInfo.Groups qi))
         (returned (run h (Lookup q queue group) w)).1.
Proof.
  unfold Lookup. cbn zeta.
  destruct (String.eqb queue ""); [| destruct (String.eqb group "")]; simp.
  - answer. destruct r as [queueMap | err]; simp; [| constructor].
    pose proof (lookupQueues_copies queueMap [] [] [] w0
                  (List.Forall_nil _) (List.Forall_nil _)) as H.
    destruct (run h (lookupQueues queueMap [] []) w0) as [[a w1] tr].
    exact H.
  - answer. destruct r as [queueMap | err]; simp; [| constructor].
    destruct (namesMap_lookup queueMap queue) as [groupNames |]; simp; [| constructor].
    rewrite run_bind.
    pose proof (lookupGroupsOf_out queue groupNames [] w0) as Hout.
    destruct (run h (lookupGroupsOf queue groupNames []) w0) as [[r w1] t1].
    unfold returned, trace in *. cbn [fst snd] in Hout.
    destruct r as [out | err]; simp; [| constructor].
    specialize (Hout out eq_refl). answer.
    destruct r as [ctime | err]; simp; [| constructor].
    cbn [fst snd app QueueInfo.Groups configsRead].
    constructor; [| constructor]. cbn [QueueInfo.Groups].
    rewrite configsRead_app, Hout. cbn [configsRead app].
    rewrite app_nil_r. apply (copiedBy_map lookupConfig []).
  - answer. destruct r as [config | err]; simp; [| constructor].
    answer. destruct r as [ctime | err]; simp; [| constructor].
    unfold returned, trace. cbn [fst snd app].
    constructor; [| constructor]. cbn [QueueInfo.Groups].
    destruct config as [config |]; [| constructor].
    constructor; [| constructor].
    exists config. split; [left; reflexivity | reflexivity].
Qed.

Lemma LookupGroup_copies (q : queueImp) (group : string) (w : W) :
  Forall (fun gi =>
            Forall (copiedBy lookupGroupConfig
                      (configsRead (trace (run h (LookupGroup q group) w))))
                   (GroupInfo.Queues gi))
         (returned (run h (LookupGroup q group) w)).1.
Proof.
  unfold LookupGroup. cbn zeta. destruct (String.eqb group ""); simp.
  - answer. destruct r as [groupMap | err]; simp; [| constructor].
    pose proof (lookupGroups_copies groupMap [] [] [] w0
                  (List.Forall_nil _) (List.Forall_nil _)) as H.
    destruct (run h (lookupGroups groupMap [] []) w0) as [[a w1] tr].
    exact H.
  - answer. destruct r as [groupMap | err]; simp; [| constructor].
    destruct (namesMap_lookup groupMap group) as [queueNames |]; simp; [| constructor].
    rewrite run_bind.
    pose proof (lookupQueuesOf_out group queueNames [] w0) as Hout.
    destruct (run h (lookupQueuesOf group queueNames []) w0) as [[r w1] t1].
    unfold returned, trace in *. cbn [fst snd] in Hout.
    destruct r as [out | err]; simp; [| constructor].
    specialize (Hout out eq_refl).
    cbn [fst snd app GroupInfo.Queues configsRead].
    constructor; [| constructor]. cbn [GroupInfo.Queues].
    rewrite Hout, app_nil_r. apply (copiedBy_map lookupGroupConfig []).
Qed.

End Lookups.

(** ** Against the modelled collaborators *)

Lemma hasTopic_setCached (w : Ref.world) (v : gset string) (topic : string) :
  Ref.hasTopic (Ref.setCached w v) topic = Ref.hasTopic w topic.
Proof. reflexivity. Qed.

Lemma hasTopic_setQueues (w : Ref.world) (v : list (string * Z)) (topic : string) :
  Ref.hasTopic (Ref.setQueues w v) topic = Ref.hasTopic w topic.
Proof. reflexivity. Qed.

Lemma hasQueue_setCached (w : Ref.world) (v : gset string) (queue : string) :
  Ref.hasQueue (Ref.setCached w v) queue = Ref.hasQueue w queue.
Proof. reflexivity. Qed.

Lemma hasQueue_setTopics (w : Ref.world) (v : gmap string (Z * Z)) (queue : string) :
  Ref.hasQueue (Ref.setTopics w v) queue = Ref.hasQueue w queue.
Proof. reflexivity. Qed.

Lemma hasTopic_created (w : Ref.world) (topic : string) (layout : Z * Z) :
  Ref.hasTopic (Ref.setTopics w (<[topic := layout]> (Ref.topics w))) topic = true.
Proof.
  unfold Ref.hasTopic. cbn [Ref.topics Ref.setTopics]. rewrite lookup_insert_eq.
  apply bool_decide_eq_true. eauto.
Qed.

Lemma hasTopic_deleted (w : Ref.world) (topic : string) :
  Ref.hasTopic (Ref.setTopics w (delete topic (Ref.topics w))) topic = false.
Proof.
  unfold Ref.hasTopic. cbn [Ref.topics Ref.setTopics]. rewrite lookup_delete_eq.
  apply bool_decide_eq_false. intros [? [=]].
Qed.

Lemma hasQueue_added (w : Ref.world) (queue : string) (t : Z) :
  Ref.hasQueue (Ref.setQueues w (Ref.queues w ++ [(queue, t)])) queue = true.
Proof.
  unfold Ref.hasQueue. cbn [Ref.queues Ref.setQueues].
  rewrite existsb_app. cbn. rewrite String.eqb_refl.
  apply orb_true_iff. right. reflexivity.
Qed.

Lemma hasQueue_removed (w : Ref.world) (queue : string) :
  Ref.hasQueue
    (Ref.setQueues w (List.filter (fun r => negb (String.eqb r.1 queue)) (Ref.queues w)))
    queue = false.
Proof.
  unfold Ref.hasQueue. cbn [Ref.queues Ref.setQueues].
  induction (Ref.queues w) as [| r l IH]; [reflexivity |].
  cbn [List.filter]. destruct (String.eqb r.1 queue) eqn:E; cbn [negb]; [exact IH |].
  cbn [existsb]. rewrite E. exact IH.
Qed.

Create Rewrite HintDb stores.
#[local] Hint Rewrite hasTopic_setCached hasTopic_setQueues hasQueue_setCached
  hasQueue_setTopics hasTopic_created hasTopic_deleted hasQueue_added
  hasQueue_removed : stores.

(** Run the modelled collaborators by one call. *)
Ltac rsimp :=
  repeat progress
    (cbn [run mbind Prog_mbind Prog_bind invoke fst snd Ref.handle];
     autorewrite with stores;
     repeat match goal with
       | H : Ref.hasTopic ?w ?t = _ |- context [Ref.hasTopic ?w ?t] => rewrite H
       | H : Ref.hasQueue ?w ?t = _ |- context [Ref.hasQueue ?w ?t] => rewrite H
       end).

Lemma Create_succeeds_on (q : queueImp) (queue : string) (w : Ref.world) :
  returned (run Ref.handle (Create q queue) w) = None ->
  Ref.hasTopic w queue = false /\ Ref.hasQueue w queue = false /\
  final (run Ref.handle (Create q queue) w) =
    Ref.setTopics
      (Ref.setQueues (Ref.setCached w (dom (Ref.topics w)))
         (Ref.queues w ++ [(queue, Ref.clock w)]))
      (<[queue := (Config.KafkaReplications (conf q), Config.KafkaPartitions (conf q))]>
         (Ref.topics w)).
Proof.
  unfold Create, returned, final. rsimp.
  destruct (Ref.hasTopic w queue) eqn:Ht; rsimp; [discriminate |].
  destruct (Ref.hasQueue w queue) eqn:Hq; rsimp; [discriminate |].
  intros _. repeat split.
Qed.

Lemma Delete_of_absent (q : queueImp) (queue : string) (w : Ref.world) :
  Ref.hasTopic w queue = false \/ Ref.hasQueue w queue = false ->
  (exists msg, returned (run Ref.handle (Delete q queue) w) = Some (NotFound msg)) /\
  Ref.topics (final (run Ref.handle (Delete q queue) w)) = Ref.topics w /\
  Ref.queues (final (run Ref.handle (Delete q queue) w)) = Ref.queues w /\
  Ref.configs (final (run Ref.handle (Delete q queue) w)) = Ref.configs w /\
  existsb (eventIs (@writes)) (trace (run Ref.handle (Delete q queue) w)) = false.
Proof.
  intros H. unfold Delete, returned, final, trace. rsimp.
  destruct (Ref.hasTopic w queue) eqn:Ht; rsimp.
  - destruct H as [H | H]; [discriminate |].
    rsimp. repeat split. eexists. reflexivity.
  - repeat split. eexists. reflexivity.
Qed.

Lemma Delete_of_present (q : queueImp) (queue : string) (w : Ref.world) :
  Ref.hasTopic w queue = true -> Ref.hasQueue w queue = true ->
  returned (run Ref.handle (Delete q queue) w) = None /\
  trace (run Ref.handle (Delete q queue) w) =
    [Ev (ExistTopic queue true) (Ok true); Ev (ExistQueue queue) (Ok true);
     Ev (DelQueue queue) None;
     Ev (DeleteTopic queue (Config.KafkaZKAddr (conf q))) None] /\
  Ref.hasTopic (final (run Ref.handle (Delete q queue) w)) queue = false /\
  Ref.hasQueue (final (run Ref.handle (Delete q queue) w)) queue = false.
Proof.
  intros Ht Hq. unfold Delete, returned, final, trace. rsimp.
  repeat split.
Qed.

Lemma Create_Delete_Delete (q : queueImp) (queue : string) (w : Ref.world) :
  returned (run Ref.handle (Create q queue) w) = None ->
  let w1 := final (run Ref.handle (Create q queue) w) in
  let w2 := final (run Ref.handle (Delete q queue) w1) in
  returned (run Ref.handle (Delete q queue) w1) = None /\
  Ref.hasTopic w2 queue = false /\ Ref.hasQueue w2 queue = false /\
  exists msg, returned (run Ref.handle (Delete q queue) w2) = Some (NotFound msg).
Proof.
  intros Hc. destruct (Create_succeeds_on q queue w Hc) as (_ & _ & Hw1).
  cbn zeta. rewrite Hw1.
  set (w1 := Ref.setTopics (Ref.setQueues _ _) _).
  assert (Ref.hasTopic w1 queue = true) as Ht.
  { exact (hasTopic_created
             (Ref.setQueues (Ref.setCached w (dom (Ref.topics w)))
                (Ref.queues w ++ [(queue, Ref.clock w)])) queue _). }
  assert (Ref.hasQueue w1 queue = true) as Hq.
  { exact (hasQueue_added (Ref.setCached w (dom (Ref.topics w))) queue (Ref.clock w)). }
  destruct (Delete_of_present q queue w1 Ht Hq) as (Hr & _ & Ht2 & Hq2).
  repeat split; try assumption.
  apply (Delete_of_absent q queue). left. assumption.
Qed.

Lemma disagreement_refused (q : queueImp) (queue : string) (w : Ref.world) :
  inOneStoreOnly w queue ->
  (exists msg, returned (run Ref.handle (Create q queue) w) = Some (AlreadyExists msg)) /\
  (exists msg, returned (run Ref.handle (Delete q queue) w) = Some (NotFound msg)) /\
  existsb (eventIs (@writes)) (trace (run Ref.handle (Create q queue) w)) = false /\
  existsb (eventIs (@writes)) (trace (run Ref.handle (Delete q queue) w)) = false.
Proof.
  unfold inOneStoreOnly. intros H.
  assert (Ref.hasTopic w queue = false \/ Ref.hasQueue w queue = false) as Habs.
  { destruct (Ref.hasTopic w queue), (Ref.hasQueue w queue); auto; congruence. }
  destruct (Delete_of_absent q queue w Habs) as (Hd & _ & _ & _ & Hdw).
  split; [| split; [exact Hd | split; [| exact Hdw]]];
    unfold Create, returned, trace; rsimp;
    destruct (Ref.hasTopic w queue) eqn:Ht; rsimp; try (eexists; reflexivity);
      try reflexivity;
    destruct (Ref.hasQueue w queue) eqn:Hq; rsimp; try (eexists; reflexivity);
      try reflexivity; congruence.
Qed.

Lemma sum_from (l : list Z) (a : Z) :
  fold_right Z.add a l = fold_right Z.add 0 l + a.
Proof. induction l as [| x l IH]; cbn [fold_right]; lia. Qed.

Lemma counter_counted (obs : list (Z * (string * string) * Z)) (t : Z)
    (queue group : string) (n : Z) (queue' group' : string) :
  Ref.counter (obs ++ [(t, (queue, group), n)]) queue' group' =
  Ref.counter obs queue' group'
  + (if String.eqb queue queue' && String.eqb group group' then n else 0).
Proof.
  unfold Ref.counter. rewrite List.filter_app, map_app, fold_right_app.
  rewrite sum_from. f_equal. cbn.
  destruct (String.eqb queue queue' && String.eqb group group'); cbn; lia.
Qed.

Lemma SendMsg_counted (q : queueImp) (queue group : string) (data : bytes)
    (w : Ref.world) :
  queue ∈ Ref.cached w ->
  returned (run Ref.handle (SendMsg q queue group data) w)
    = (if Ref.transportUp w then None else Some Ref.down) /\
  Ref.counter (Ref.sent (final (run Ref.handle (SendMsg q queue group data) w)))
      queue group
    = Ref.counter (Ref.sent w) queue group + (if Ref.transportUp w then 1 else 0) /\
  forall queue' group',
    (queue', group') <> (queue, group) ->
    Ref.counter (Ref.sent (final (run Ref.handle (SendMsg q queue group data) w)))
        queue' group'
      = Ref.counter (Ref.sent w) queue' group'.
Proof.
  intros Hin. unfold SendMsg, returned, final. rsimp.
  rewrite (bool_decide_eq_true_2 _ Hin). rsimp.
  destruct (Ref.transportUp w); rsimp;
    cbn [Ref.sent Ref.setSent Ref.setProduced Ref.clock].
  - split; [reflexivity |]. split.
    + rewrite counter_counted, !String.eqb_refl. reflexivity.
    + intros queue' group' Hne. rewrite counter_counted.
      destruct (String.eqb_spec queue queue') as [-> |]; cbn [andb]; [| lia].
      destruct (String.eqb_spec group group') as [-> |]; [congruence | lia].
  - split; [reflexivity |]. split; [lia | reflexivity].
Qed.

Lemma sameButConfigs_fields (w1 w2 : Ref.world) :
  sameButConfigs w1 w2 ->
  Ref.topics w1 = Ref.topics w2 /\ Ref.cached w1 = Ref.cached w2 /\
  Ref.queues w1 = Ref.queues w2 /\ Ref.clock w1 = Ref.clock w2 /\
  Ref.transportUp w1 = Ref.transportUp w2 /\ Ref.produced w1 = Ref.produced w2 /\
  Ref.sessions w1 = Ref.sessions w2 /\ Ref.consumed w1 = Ref.consumed w2 /\
  Ref.sent w1 = Ref.sent w2 /\ Ref.received w1 = Ref.received w2.
Proof.
  unfold sameButConfigs, Ref.setConfigs. intros [= ? ? ? ? ? ? ? ? ? ?].
  repeat split; assumption.
Qed.

Lemma handle_alike : alike Ref.handle Ref.handle sameButConfigs.
Proof.
  intros R c w1 w2 Hc Hw.
  destruct (sameButConfigs_fields w1 w2 Hw)
    as (Ht & Hca & Hq & Hcl & Hup & Hp & Hs & Hco & Hse & Hre).
  destruct c; try discriminate Hc; try destruct refresh;
    cbn [Ref.handle]; unfold Ref.hasTopic, Ref.messagesOf;
    rewrite <- ?Ht, <- ?Hca, <- ?Hq, <- ?Hcl, <- ?Hup, <- ?Hp, <- ?Hs, <- ?Hco,
      <- ?Hse, <- ?Hre;
    repeat match goal with
      | |- context [if ?b then _ else _] => destruct b
      | |- context [match ?o with Some _ => _ | None => _ end] => destruct o
      end;
    (split; [reflexivity |]);
    cbn [fst snd]; try assumption;
    unfold sameButConfigs, Ref.setConfigs, Ref.setCached, Ref.setTopics,
      Ref.setProduced, Ref.setSessions, Ref.setConsumed, Ref.setSent,
      Ref.setReceived in *;
    cbn [Ref.topics Ref.cached Ref.queues Ref.configs Ref.clock Ref.transportUp
         Ref.produced Ref.sessions Ref.consumed Ref.sent Ref.received] in *;
    congruence.
Qed.

(** * The claims *)

(** C1 (the code departs from it): an empty name is to be refused with an
    invalid-argument error before any store is consulted.  In the code the
    [NotValidf] error is built and dropped.  Whatever the collaborators, each
    of the six operations called with an empty queue name goes on to ask the
    registry about the topic "".  On the empty reference service [Create ""]
    succeeds and leaves a topic and a metadata record named ""; [Update],
    [Delete], [AddGroup], [UpdateGroup] and [DeleteGroup] with empty names
    fail with not-found; and [AddGroup] with an empty group name on an
    existing queue succeeds. *)
Theorem empty_name_reaches_the_stores :
  (forall (W : Type) (h : handler W) (q : queueImp) (w : W),
     existChecks (trace (run h (Create q "") w)) = [("", true)] /\
     existChecks (trace (run h (Update q "") w)) = [("", true)] /\
     existChecks (trace (run h (Delete q "") w)) = [("", true)] /\
     existChecks (trace (run h (AddGroup q "" "" false false "" []) w)) = [("", true)] /\
     existChecks (trace (run h (UpdateGroup q "" "" false false "" []) w)) = [("", true)] /\
     existChecks (trace (run h (DeleteGroup q "" "") w)) = [("", true)]) /\
  returned (run Ref.handle (Create Example.service "") Ref.empty) = None /\
  Ref.hasTopic (Example.after (Create Example.service "") Ref.empty) "" = true /\
  Ref.hasQueue (Example.after (Create Example.service "") Ref.empty) "" = true /\
  returned (run Ref.handle (Update Example.service "") Ref.empty)
    = Some (NotFound "UpdateQueue queue: ") /\
  returned (run Ref.handle (Delete Example.service "") Ref.empty)
    = Some (NotFound "DeleteQueue queue: ") /\
  returned (run Ref.handle (AddGroup Example.service "" "" true true "" []) Ref.empty)
    = Some (NotFound "AddGroup queue: ") /\
  returned (run Ref.handle (UpdateGroup Example.service "" "" true true "" []) Ref.empty)
    = Some (NotFound "UpdateGroup queue: ") /\
  returned (run Ref.handle (DeleteGroup Example.service "" "") Ref.empty)
    = Some (NotFound "DeleteGroup queue: ") /\
  returned (run Ref.handle (AddGroup Example.service "" "q1" true true "" [])
              Example.created) = None.
Proof.
  split.
  - intros W h q w.
    pose proof (existChecks_strict h q "" "" false false "" [] 0 0 0 w)
      as (H1 & H2 & H3 & H4 & H5 & H6 & _).
    repeat split; assumption.
  - vm_compute. repeat split.
Qed.

(** C2: [Create] of a non-empty name first checks the registry with a forced
    refresh and fails already-exists if the topic is there, then checks the
    metadata store and fails already-exists if the record is there, then
    writes the metadata record and only then creates the topic, with the
    configured replication factor and partition count; the answer of the
    topic creation is the answer of [Create], and no call follows it. *)
Theorem Create_checks_then_writes (W : Type) (h : handler W) (q : queueImp)
    (queue : string) (w : W) :
  queue <> "" ->
  CreateRun q queue (trace (run h (Create q queue) w))
    (returned (run h (Create q queue) w)).
Proof. intros _. apply Create_runs. Qed.

Lemma Create_checks_then_writes_witness :
  CreateRun Example.service "q1"
    (trace (run Ref.handle (Create Example.service "q1") Ref.empty))
    (returned (run Ref.handle (Create Example.service "q1") Ref.empty)).
Proof. apply Create_checks_then_writes. discriminate. Defined.

(** C3: [Delete] fails not-found when the queue is missing from the registry
    or from the metadata store, and then writes to neither; otherwise it
    deletes the metadata record first and the topic second.  On the
    reference stores: a failed [Delete] leaves topics, queue records and
    group records as they were; and after a [Create] that succeeded, [Delete]
    succeeds, neither store holds the queue, and a second [Delete] fails
    not-found. *)
Theorem Delete_checks_then_deletes (q : queueImp) (queue : string) :
  (forall (W : Type) (h : handler W) (w : W),
     DeleteRun q queue (trace (run h (Delete q queue) w))
       (returned (run h (Delete q queue) w))) /\
  (forall w : Ref.world,
     Ref.hasTopic w queue = false \/ Ref.hasQueue w queue = false ->
     (exists msg, returned (run Ref.handle (Delete q queue) w) = Some (NotFound msg)) /\
     Ref.topics (final (run Ref.handle (Delete q queue) w)) = Ref.topics w /\
     Ref.queues (final (run Ref.handle (Delete q queue) w)) = Ref.queues w /\
     Ref.configs (final (run Ref.handle (Delete q queue) w)) = Ref.configs w /\
     existsb (eventIs (@writes)) (trace (run Ref.handle (Delete q queue) w)) = false) /\
  (forall w : Ref.world,
     Ref.hasTopic w queue = true -> Ref.hasQueue w queue = true ->
     returned (run Ref.handle (Delete q queue) w) = None /\
     trace (run Ref.handle (Delete q queue) w) =
       [Ev (ExistTopic queue true) (Ok true); Ev (ExistQueue queue) (Ok true);
        Ev (DelQueue queue) None;
        Ev (DeleteTopic queue (Config.KafkaZKAddr (conf q))) None] /\
     Ref.hasTopic (final (run Ref.handle (Delete q queue) w)) queue = false /\
     Ref.hasQueue (final (run Ref.handle (Delete q queue) w)) queue = false) /\
  (forall w : Ref.world,
     returned (run Ref.handle (Create q queue) w) = None ->
     let w1 := final (run Ref.handle (Create q queue) w) in
     let w2 := final (run Ref.handle (Delete q queue) w1) in
     returned (run Ref.handle (Delete q queue) w1) = None /\
     Ref.hasTopic w2 queue = false /\ Ref.hasQueue w2 queue = false /\
     exists msg, returned (run Ref.handle (Delete q queue) w2) = Some (NotFound msg)).
Proof.
  split; [| split; [| split]].
  - intros W h w. apply Delete_runs.
  - intros w. apply Delete_of_absent.
  - intros w. apply Delete_of_present.
  - intros w. apply Create_Delete_Delete.
Qed.

Lemma Delete_checks_then_deletes_witness :
  returned (run Ref.handle (Delete Example.service "q1") Example.created) = None /\
  Ref.hasTopic Example.deleted "q1" = false /\
  Ref.hasQueue Example.deleted "q1" = false /\
  exists msg,
    returned (run Ref.handle (Delete Example.service "q1") Example.deleted)
      = Some (NotFound msg).
Proof.
  destruct (Delete_checks_then_deletes Example.service "q1") as (_ & _ & _ & H).
  apply (H Ref.empty). vm_compute. reflexivity.
Defined.

(** C4: [ReceiveMsg] computes the cache key of a call as the queue name,
    then "@", then the group name.  With a session cached under that key the
    call uses it, makes no [NewConsumer] call and leaves the facade as it
    was; with none cached it constructs one, which enters the cache under
    that key only if the construction succeeded; a failed construction
    returns its error and leaves the cache as it was; the entries under all
    other keys are never touched.  Over any sequence of calls on one facade,
    the sessions constructed for a key are as many as the cache gained for
    it: at most one, none for a key it already held. *)
Theorem ReceiveMsg_caches_one_session (W : Type) (h : handler W) (q : queueImp) :
  (forall (queue group : string) (w : W),
     ReceiveRun q queue group
       (trace (run h (ReceiveMsg q queue group) w))
       (returned (run h (ReceiveMsg q queue group) w)).1
       (returned (run h (ReceiveMsg q queue group) w)).2) /\
  (forall (calls : list (string * string)) (w : W) (id : string),
     (constructions id (trace (run h (receiveAll q calls) w)) + cachedFor q id)%nat
       = cachedFor (returned (run h (receiveAll q calls) w)).2 id /\
     (constructions id (trace (run h (receiveAll q calls) w)) <= 1)%nat) /\
  (forall queue group : string,
     consumerId queue group = String.append queue (String "@" group)) /\
  (forall (queue group : string) (w : W) (consumer : Consumer),
     consumerMap q !! String.append queue (String "@" group) = Some consumer ->
     (returned (run h (ReceiveMsg q queue group) w)).2 = q /\
     brokerLists (trace (run h (ReceiveMsg q queue group) w)) = [] /\
     constructions (String.append queue (String "@" group))
       (trace (run h (ReceiveMsg q queue group) w)) = 0%nat) /\
  (forall (queue group : string) (w : W),
     consumerMap q !! String.append queue (String "@" group) = None ->
     match consumerMap (returned (run h (ReceiveMsg q queue group) w)).2
             !! String.append queue (String "@" group) with
     | Some consumer =>
         constructions (String.append queue (String "@" group))
           (trace (run h (ReceiveMsg q queue group) w)) = 1%nat /\
         exists tr answer,
           trace (run h (ReceiveMsg q queue group) w)
             = Ev (ExistTopic queue false) (Ok true) :: Ev Lock tt
               :: Ev (NewConsumer (Split_comma (Config.KafkaBrokerAddr (conf q)))
                        queue group) (Ok consumer)
               :: tr /\
           ReceiveOn queue group consumer tr answer
     | None =>
         constructions (String.append queue (String "@" group))
           (trace (run h (ReceiveMsg q queue group) w)) = 0%nat /\
         exists err, (returned (run h (ReceiveMsg q queue group) w)).1 = Err err
     end) /\
  (forall (queue group : string) (w : W) (id : string),
     id <> String.append queue (String "@" group) ->
     consumerMap (returned (run h (ReceiveMsg q queue group) w)).2 !! id
       = consumerMap q !! id).
Proof.
  assert (forall queue group : string,
            consumerId queue group = String.append queue (String "@" group))
    as Hkey by reflexivity.
  split; [| split; [| split; [exact Hkey | split; [| split]]]].
  - intros queue group w. apply (Receive_runs h).
  - intros calls w id.
    pose proof (receiveAll_constructions h calls q w id) as H. cbn zeta in H.
    split; [exact H |].
    assert (cachedFor (returned (run h (receiveAll q calls) w)).2 id <= 1)%nat.
    { unfold cachedFor. destruct (consumerMap _ !! id); lia. }
    lia.
  - intros queue group w consumer. rewrite <- Hkey. intros Hin.
    pose proof (Receive_runs h q queue group w) as H. cbn zeta in H.
    destruct (run h (ReceiveMsg q queue group) w) as [[[a q'] w'] tr].
    unfold trace, returned in *. cbn [fst snd] in *.
    destruct H as [err | msg | c tr answer Hc Hon | err Hc | c tr answer Hc Hon];
      try congruence; try (repeat split; reflexivity).
    destruct Hon; repeat split; reflexivity.
  - intros queue group w. rewrite <- Hkey. intros Hnone.
    pose proof (Receive_runs h q queue group w) as H. cbn zeta in H.
    destruct (run h (ReceiveMsg q queue group) w) as [[[a q'] w'] tr].
    unfold trace, returned in *. cbn [fst snd] in *.
    destruct H as [err | msg | c tr answer Hc Hon | err Hc | c tr answer Hc Hon];
      try congruence; try (rewrite Hnone; split; [reflexivity | eauto]).
    cbn [consumerMap]. rewrite lookup_insert_eq. split.
    + unfold constructions. cbn [List.filter constructedFor].
      rewrite String.eqb_refl. destruct Hon; reflexivity.
    + eauto.
  - intros queue group w id. rewrite <- Hkey. intros Hne.
    pose proof (Receive_runs h q queue group w) as H. cbn zeta in H.
    destruct (run h (ReceiveMsg q queue group) w) as [[[a q'] w'] tr].
    unfold trace, returned in *. cbn [fst snd] in *.
    destruct H as [err | msg | c tr answer Hc Hon | err Hc | c tr answer Hc Hon];
      try reflexivity.
    cbn [consumerMap]. apply lookup_insert_ne. congruence.
Qed.

(** C5 (the code departs from it): [Lookup "" ""] is to give every queue the
    group configs of its own groups.  The slice the configs are appended to
    is declared once, above the loop over the queues, and is never reset: on
    the reference service with queue "q1" holding group "g1" and queue "q2"
    holding group "g2", the entry of "q2" lists the config of "g1" before
    that of "g2".  The rest of the claim holds there: one entry per queue,
    with its creation time and length 0, and the empty list with no error on
    the empty service. *)
Theorem Lookup_all_carries_groups_over :
  returned (run Ref.handle (Lookup Example.service "" "") Example.twoQueues) =
    ([ {| QueueInfo.Queue := "q1"; QueueInfo.Ctime := 0; QueueInfo.Length := 0;
          QueueInfo.Groups :=
            [ {| GroupConfig.Group := "g1"; GroupConfig.Queue := "";
                 GroupConfig.Write := true; GroupConfig.Read := false;
                 GroupConfig.Url := "http://g1"; GroupConfig.Ips := ["10.0.0.1"] |} ] |};
       {| QueueInfo.Queue := "q2"; QueueInfo.Ctime := 0; QueueInfo.Length := 0;
          QueueInfo.Groups :=
            [ {| GroupConfig.Group := "g1"; GroupConfig.Queue := "";
                 GroupConfig.Write := true; GroupConfig.Read := false;
                 GroupConfig.Url := "http://g1"; GroupConfig.Ips := ["10.0.0.1"] |};
              {| GroupConfig.Group := "g2"; GroupConfig.Queue := "";
                 GroupConfig.Write := true; GroupConfig.Read := true;
                 GroupConfig.Url := "http://g2"; GroupConfig.Ips := [] |} ] |} ],
     None) /\
  Ref.groupsOf Example.twoQueues "q2" = ["g2"] /\
  returned (run Ref.handle (Lookup Example.service "" "") Ref.empty) = ([], None).
Proof. vm_compute. repeat split. Qed.

(** C6, as the spec states it, fails.  With a topic "q1" in the registry and
    no metadata record, [Update "q1"] succeeds, [AddGroup] writes a group
    record, [GetSingleGroup] and both metrics queries answer with no error,
    [Lookup "q1" ""] returns the empty list with no error, and once a group
    record is there [UpdateGroup] and [DeleteGroup] succeed; after the
    registry client has seen the topic a message is sent and received.  With
    a metadata record "q1" and no topic, [Lookup "q1" ""] returns the queue
    with no error. *)
Lemma one_store_only_goes_unnoticed :
  inOneStoreOnly Example.topicOnly "q1" /\
  returned (run Ref.handle (Update Example.service "q1") Example.topicOnly) = None /\
  returned (run Ref.handle (AddGroup Example.service "g1" "q1" true true "" [])
              Example.topicOnly) = None /\
  inOneStoreOnly Example.recordOnly "q1" /\
  returned (run Ref.handle (Lookup Example.service "q1" "") Example.recordOnly) =
    ([ {| QueueInfo.Queue := "q1"; QueueInfo.Ctime := 0; QueueInfo.Length := 0;
          QueueInfo.Groups := [] |} ], None) /\
  returned (run Ref.handle (GetSingleGroup Example.service "g1" "q1")
              Example.topicOnly) = Ok None /\
  returned (run Ref.handle (GetSendMetrics Example.service "q1" "g1" 0 10 2)
              Example.topicOnly) = Ok [0; 0] /\
  returned (run Ref.handle (GetReceiveMetrics Example.service "q1" "g1" 0 10 2)
              Example.topicOnly) = Ok [0; 0] /\
  returned (run Ref.handle (Lookup Example.service "q1" "") Example.topicOnly)
    = ([], None) /\
  inOneStoreOnly topicWithGroup "q1" /\
  returned (run Ref.handle (UpdateGroup Example.service "g1" "q1" false true "" [])
              topicWithGroup) = None /\
  returned (run Ref.handle (DeleteGroup Example.service "g1" "q1") topicWithGroup)
    = None /\
  inOneStoreOnly topicInUse "q1" /\
  returned (run Ref.handle (SendMsg Example.service "q1" "g1" Example.payload)
              topicInUse) = None /\
  (returned (run Ref.handle (ReceiveMsg Example.service "q1" "g1") topicInUse)).1
    = Ok Example.payload.
Proof.
  unfold inOneStoreOnly. vm_compute. repeat split; discriminate.
Qed.

(** C6, amended: whenever the registry and the metadata store disagree on a
    queue's existence, [Create] of that queue fails already-exists and
    [Delete] of it fails not-found, and neither writes to a store; and when
    it is the registry that has no topic, [Update], [AddGroup],
    [UpdateGroup], [DeleteGroup], [GetSingleGroup], [GetSendMetrics] and
    [GetReceiveMetrics] on that queue fail not-found after the registry
    check alone.  This holds for any collaborators that answer so, and so in
    every reference state in which the queue has a record in exactly one of
    the two stores. *)
Theorem Create_and_Delete_refuse_disagreement (q : queueImp) (queue : string)
    (group : string) (write read : bool) (url : string) (ips : list string)
    (start stop intervalnum : Z) :
  (forall (W : Type) (h : handler W) (w : W) (inRegistry : bool),
     (h _ (ExistTopic queue true) w).1 = Ok inRegistry ->
     (h _ (ExistQueue queue) (h _ (ExistTopic queue true) w).2).1
       = Ok (negb inRegistry) ->
     (exists msg, returned (run h (Create q queue) w) = Some (AlreadyExists msg)) /\
     (exists msg, returned (run h (Delete q queue) w) = Some (NotFound msg)) /\
     existsb (eventIs (@writes)) (trace (run h (Create q queue) w)) = false /\
     existsb (eventIs (@writes)) (trace (run h (Delete q queue) w)) = false) /\
  (forall w : Ref.world,
     inOneStoreOnly w queue ->
     (exists msg, returned (run Ref.handle (Create q queue) w) = Some (AlreadyExists msg)) /\
     (exists msg, returned (run Ref.handle (Delete q queue) w) = Some (NotFound msg)) /\
     existsb (eventIs (@writes)) (trace (run Ref.handle (Create q queue) w)) = false /\
     existsb (eventIs (@writes)) (trace (run Ref.handle (Delete q queue) w)) = false) /\
  (forall (W : Type) (h : handler W) (w : W),
     (h _ (ExistTopic queue true) w).1 = Ok false ->
     (failsNotFound (returned (run h (Update q queue) w)) /\
      trace (run h (Update q queue) w) = [Ev (ExistTopic queue true) (Ok false)]) /\
     (failsNotFound (returned (run h (AddGroup q group queue write read url ips) w)) /\
      trace (run h (AddGroup q group queue write read url ips) w)
        = [Ev (ExistTopic queue true) (Ok false)]) /\
     (failsNotFound (returned (run h (UpdateGroup q group queue write read url ips) w)) /\
      trace (run h (UpdateGroup q group queue write read url ips) w)
        = [Ev (ExistTopic queue true) (Ok false)]) /\
     (failsNotFound (returned (run h (DeleteGroup q group queue) w)) /\
      trace (run h (DeleteGroup q group queue) w)
        = [Ev (ExistTopic queue true) (Ok false)]) /\
     (errsNotFound (returned (run h (GetSingleGroup q group queue) w)) /\
      trace (run h (GetSingleGroup q group queue) w)
        = [Ev (ExistTopic queue true) (Ok false)]) /\
     (errsNotFound
        (returned (run h (GetSendMetrics q queue group start stop intervalnum) w)) /\
      trace (run h (GetSendMetrics q queue group start stop intervalnum) w)
        = [Ev (ExistTopic queue true) (Ok false)]) /\
     (errsNotFound
        (returned (run h (GetReceiveMetrics q queue group start stop intervalnum) w)) /\
      trace (run h (GetReceiveMetrics q queue group start stop intervalnum) w)
        = [Ev (ExistTopic queue true) (Ok false)])) /\
  (forall w : Ref.world,
     inOneStoreOnly w queue ->
     Ref.hasQueue w queue = true ->
     failsNotFound (returned (run Ref.handle (Update q queue) w)) /\
     failsNotFound
       (returned (run Ref.handle (AddGroup q group queue write read url ips) w)) /\
     failsNotFound
       (returned (run Ref.handle (UpdateGroup q group queue write read url ips) w)) /\
     failsNotFound (returned (run Ref.handle (DeleteGroup q group queue) w)) /\
     errsNotFound (returned (run Ref.handle (GetSingleGroup q group queue) w)) /\
     errsNotFound
       (returned (run Ref.handle
                    (GetSendMetrics q queue group start stop intervalnum) w)) /\
     errsNotFound
       (returned (run Ref.handle
                    (GetReceiveMetrics q queue group start stop intervalnum) w))).
Proof.
  split; [| split; [| split]].
  - intros W h w inRegistry. apply disagreement_answered.
  - intros w. apply disagreement_refused.
  - intros W h w. apply missing_topic_refused.
  - intros w Hone Hq.
    assert ((Ref.handle _ (ExistTopic queue true) w).1 = Ok false) as Hno.
    { unfold inOneStoreOnly in Hone. rewrite Hq in Hone. cbn [Ref.handle fst].
      destruct (Ref.hasTopic w queue); [congruence | reflexivity]. }
    destruct (missing_topic_refused Ref.world Ref.handle q queue group write read
                url ips start stop intervalnum w Hno)
      as ((H1 & _) & (H2 & _) & (H3 & _) & (H4 & _) & (H5 & _) & (H6 & _) & (H7 & _)).
    repeat split; assumption.
Qed.

Lemma Create_and_Delete_refuse_disagreement_witness :
  ((exists msg,
      returned (run Ref.handle (Create Example.service "q1") Example.topicOnly)
        = Some (AlreadyExists msg)) /\
   (exists msg,
      returned (run Ref.handle (Delete Example.service "q1") Example.topicOnly)
        = Some (NotFound msg))) /\
  ((exists msg,
      returned (run Ref.handle (Create Example.service "q1") Example.recordOnly)
        = Some (AlreadyExists msg)) /\
   (exists msg,
      returned (run Ref.handle (Delete Example.service "q1") Example.recordOnly)
        = Some (NotFound msg))) /\
  failsNotFound (returned (run Ref.handle (Update Example.service "q1")
                             Example.recordOnly)) /\
  failsNotFound
    (returned (run Ref.handle (AddGroup Example.service "g1" "q1" true true "" [])
                 Example.recordOnly)) /\
  errsNotFound (returned (run Ref.handle (GetSingleGroup Example.service "g1" "q1")
                            Example.recordOnly)).
Proof.
  destruct (Create_and_Delete_refuse_disagreement Example.service "q1" "g1"
              true true "" [] 0 10 2) as (_ & H & _ & Hrec).
  assert (inOneStoreOnly Example.topicOnly "q1") as Ht
    by (unfold inOneStoreOnly; vm_compute; discriminate).
  assert (inOneStoreOnly Example.recordOnly "q1") as Hr
    by (unfold inOneStoreOnly; vm_compute; discriminate).
  destruct (H Example.topicOnly Ht) as (Hc1 & Hd1 & _).
  destruct (H Example.recordOnly Hr) as (Hc2 & Hd2 & _).
  destruct (Hrec Example.recordOnly Hr eq_refl) as (Hu & Ha & _ & _ & Hg & _).
  repeat split; assumption.
Defined.

(** C7: [SendMsg] and [ReceiveMsg] make their one registry existence check
    without a forced refresh; [Create], [Update], [Delete], [AddGroup],
    [UpdateGroup], [DeleteGroup], [GetSingleGroup], [GetSendMetrics] and
    [GetReceiveMetrics] make theirs with one.  In the reference state reached
    by creating and then deleting "q1", the client's view still holds the
    topic: a send to "q1" succeeds and the send metrics of "q1" fail
    not-found. *)
Theorem lenient_and_strict_existence_checks :
  (forall (W : Type) (h : handler W) (q : queueImp) (queue group : string)
          (data : bytes) (write read : bool) (url : string) (ips : list string)
          (start stop intervalnum : Z) (w : W),
     existChecks (trace (run h (SendMsg q queue group data) w)) = [(queue, false)] /\
     existChecks (trace (run h (ReceiveMsg q queue group) w)) = [(queue, false)] /\
     existChecks (trace (run h (Create q queue) w)) = [(queue, true)] /\
     existChecks (trace (run h (Update q queue) w)) = [(queue, true)] /\
     existChecks (trace (run h (Delete q queue) w)) = [(queue, true)] /\
     existChecks (trace (run h (AddGroup q group queue write read url ips) w))
       = [(queue, true)] /\
     existChecks (trace (run h (UpdateGroup q group queue write read url ips) w))
       = [(queue, true)] /\
     existChecks (trace (run h (DeleteGroup q group queue) w)) = [(queue, true)] /\
     existChecks (trace (run h (GetSingleGroup q group queue) w)) = [(queue, true)] /\
     existChecks (trace (run h (GetSendMetrics q queue group start stop intervalnum) w))
       = [(queue, true)] /\
     existChecks (trace (run h (GetReceiveMetrics q queue group start stop intervalnum) w))
       = [(queue, true)]) /\
  (returned (run Ref.handle (SendMsg Example.service "q1" "g1" Example.payload)
               Example.deleted) = None /\
   returned (run Ref.handle (GetSendMetrics Example.service "q1" "g1" 0 10 2)
               Example.deleted) = Err (NotFound "GetSendMetrics queue:q1 ")).
Proof.
  split.
  - intros W h q queue group data write read url ips start stop intervalnum w.
    destruct (existChecks_lenient h q queue group data w) as (Hs & Hr).
    split; [exact Hs | split; [exact Hr |]].
    apply existChecks_strict.
  - vm_compute. split; reflexivity.
Qed.

(** C8: when the lenient check finds the queue, [SendMsg] produces the
    payload under the queue's name alone and counts one send for
    (queue, group) exactly when the produce succeeded; when the produce
    failed it returns that error and counts nothing.  On the reference
    recorder the counter of (queue, group) grows by 1 when the transport is
    reachable and by 0 when it is not, and no other counter moves. *)
Theorem SendMsg_counts_what_it_produced (q : queueImp) (queue group : string)
    (data : bytes) :
  (forall (W : Type) (h : handler W) (w w1 : W),
     h _ (ExistTopic queue false) w = (Ok true, w1) ->
     SendRun queue group data (trace (run h (SendMsg q queue group data) w))
       (returned (run h (SendMsg q queue group data) w))) /\
  (forall w : Ref.world,
     queue ∈ Ref.cached w ->
     returned (run Ref.handle (SendMsg q queue group data) w)
       = (if Ref.transportUp w then None else Some Ref.down) /\
     Ref.counter (Ref.sent (final (run Ref.handle (SendMsg q queue group data) w)))
         queue group
       = Ref.counter (Ref.sent w) queue group + (if Ref.transportUp w then 1 else 0) /\
     forall queue' group',
       (queue', group') <> (queue, group) ->
       Ref.counter (Ref.sent (final (run Ref.handle (SendMsg q queue group data) w)))
           queue' group'
         = Ref.counter (Ref.sent w) queue' group').
Proof.
  split.
  - intros W h w w1. apply Send_runs.
  - intros w. apply SendMsg_counted.
Qed.

Lemma SendMsg_counts_what_it_produced_witness :
  SendRun "q1" "g1" Example.payload
    (trace (run Ref.handle (SendMsg Example.service "q1" "g1" Example.payload)
              Example.withMessage))
    None /\
  Ref.counter
    (Ref.sent (final (run Ref.handle (SendMsg Example.service "q1" "g1" Example.payload)
                        Example.withMessage))) "q1" "g1"
    = Ref.counter (Ref.sent Example.withMessage) "q1" "g1" + 1 /\
  SendRun "q1" "g1" Example.payload
    (trace (run Ref.handle (SendMsg Example.service "q1" "g1" Example.payload)
              Example.unreachable))
    (Some Ref.down) /\
  Ref.counter
    (Ref.sent (final (run Ref.handle (SendMsg Example.service "q1" "g1" Example.payload)
                        Example.unreachable))) "q1" "g1"
    = Ref.counter (Ref.sent Example.unreachable) "q1" "g1" + 0.
Proof.
  destruct (SendMsg_counts_what_it_produced Example.service "q1" "g1" Example.payload)
    as (Hrun & Hcount).
  assert ("q1" ∈ Ref.cached Example.withMessage) as Hin
    by (apply (bool_decide_unpack _); vm_compute; exact I).
  split; [| split; [| split]].
  - exact (Hrun Ref.world Ref.handle Example.withMessage Example.withMessage eq_refl).
  - exact (proj1 (proj2 (Hcount Example.withMessage Hin))).
  - exact (Hrun Ref.world Ref.handle Example.unreachable Example.unreachable eq_refl).
  - exact (proj1 (proj2 (Hcount Example.unreachable Hin))).
Defined.

(** C9, as the spec states it, fails: the configs that [Lookup] returns are
    to have their group-name field unset.  On the reference service the
    config that [Lookup "q1" "g1"] returns carries the group name "g1". *)
Lemma Lookup_returns_the_group_name :
  returned (run Ref.handle (Lookup Example.service "q1" "g1") Example.twoQueues) =
    ([ {| QueueInfo.Queue := "q1"; QueueInfo.Ctime := 0; QueueInfo.Length := 0;
          QueueInfo.Groups :=
            [ {| GroupConfig.Group := "g1"; GroupConfig.Queue := "";
                 GroupConfig.Write := true; GroupConfig.Read := false;
                 GroupConfig.Url := "http://g1"; GroupConfig.Ips := ["10.0.0.1"] |} ] |} ],
     None) /\
  ~ Forall (fun qi => Forall (fun gc => GroupConfig.Group gc = "") (QueueInfo.Groups qi))
      (returned (run Ref.handle (Lookup Example.service "q1" "g1") Example.twoQueues)).1.
Proof.
  split; [vm_compute; reflexivity |].
  intros H. vm_compute in H.
  apply List.Forall_inv, List.Forall_inv in H. discriminate H.
Qed.

(** C9, amended: every config that [Lookup] returns has its queue-name field
    unset and carries the [Group], [Write], [Read], [Url] and [Ips] of a
    record the metadata store handed out in that call; every config that
    [LookupGroup] returns has its group-name field unset and carries the
    [Queue], [Write], [Read], [Url] and [Ips] of such a record. *)
Theorem Lookup_configs_omit_the_queue (W : Type) (h : handler W) (q : queueImp)
    (queue group : string) (w : W) :
  Forall (fun qi =>
            Forall (fun gc =>
                      GroupConfig.Queue gc = "" /\
                      exists config,
                        In config (configsRead (trace (run h (Lookup q queue group) w))) /\
                        GroupConfig.Group gc = GroupConfig.Group config /\
                        GroupConfig.Write gc = GroupConfig.Write config /\
                        GroupConfig.Read gc = GroupConfig.Read config /\
                        GroupConfig.Url gc = GroupConfig.Url config /\
                        GroupConfig.Ips gc = GroupConfig.Ips config)
                   (QueueInfo.Groups qi))
         (returned (run h (Lookup q queue group) w)).1 /\
  Forall (fun gi =>
            Forall (fun gc =>
                      GroupConfig.Group gc = "" /\
                      exists config,
                        In config (configsRead (trace (run h (LookupGroup q group) w))) /\
                        GroupConfig.Queue gc = GroupConfig.Queue config /\
                        GroupConfig.Write gc = GroupConfig.Write config /\
                        GroupConfig.Read gc = GroupConfig.Read config /\
                        GroupConfig.Url gc = GroupConfig.Url config /\
                        GroupConfig.Ips gc = GroupConfig.Ips config)
                   (GroupInfo.Queues gi))
         (returned (run h (LookupGroup q group) w)).1.
Proof.
  split.
  - eapply Forall_impl; [apply Lookup_copies |].
    intros qi Hqi. eapply Forall_impl; [exact Hqi |].
    intros gc (config & Hin & ->). split; [reflexivity |].
    exists config. repeat split. exact Hin.
  - eapply Forall_impl; [apply LookupGroup_copies |].
    intros gi Hgi. eapply Forall_impl; [exact Hgi |].
    intros gc (config & Hin & ->). split; [reflexivity |].
    exists config. repeat split. exact Hin.
Qed.

(** C10: [SendMsg] and [ReceiveMsg] never call the extended-metadata
    manager, so they read no group record.  Run against two sets of
    collaborators that answer alike on every call outside that manager, from
    states related accordingly, each of them returns the same value after the
    same calls with the same answers. *)
Theorem messaging_ignores_group_records (W1 W2 : Type) (h1 : handler W1)
    (h2 : handler W2) (related : W1 -> W2 -> Prop) (q : queueImp)
    (queue group : string) (data : bytes) (w1 : W1) (w2 : W2) :
  alike h1 h2 related ->
  related w1 w2 ->
  (returned (run h1 (SendMsg q queue group data) w1)
     = returned (run h2 (SendMsg q queue group data) w2) /\
   trace (run h1 (SendMsg q queue group data) w1)
     = trace (run h2 (SendMsg q queue group data) w2)) /\
  (returned (run h1 (ReceiveMsg q queue group) w1)
     = returned (run h2 (ReceiveMsg q queue group) w2) /\
   trace (run h1 (ReceiveMsg q queue group) w1)
     = trace (run h2 (ReceiveMsg q queue group) w2)).
Proof.
  intros Halike Hw. split.
  - destruct (metadataFree_alike h1 h2 related Halike _
                (SendMsg_metadataFree q queue group data) w1 w2 Hw) as (Hr & Ht & _).
    split; assumption.
  - destruct (metadataFree_alike h1 h2 related Halike _
                (ReceiveMsg_metadataFree q queue group) w1 w2 Hw) as (Hr & Ht & _).
    split; assumption.
Qed.

Lemma messaging_ignores_group_records_witness :
  (returned (run Ref.handle (SendMsg Example.service "q1" "g1" Example.payload)
               Example.denied)
     = returned (run Ref.handle (SendMsg Example.service "q1" "g1" Example.payload)
                   Example.withMessage) /\
   trace (run Ref.handle (SendMsg Example.service "q1" "g1" Example.payload)
            Example.denied)
     = trace (run Ref.handle (SendMsg Example.service "q1" "g1" Example.payload)
                Example.withMessage)) /\
  (returned (run Ref.handle (ReceiveMsg Example.service "q1" "g1") Example.denied)
     = returned (run Ref.handle (ReceiveMsg Example.service "q1" "g1")
                   Example.withMessage) /\
   trace (run Ref.handle (ReceiveMsg Example.service "q1" "g1") Example.denied)
     = trace (run Ref.handle (ReceiveMsg Example.service "q1" "g1")
                Example.withMessage)).
Proof.
  apply (messaging_ignores_group_records Ref.world Ref.world Ref.handle Ref.handle
           sameButConfigs).
  - exact handle_alike.
  - reflexivity.
Defined.

(** ** The example service, run *)

Example Split_comma_addrs :
  Split_comma "b1:9092,b2:9092" = ["b1:9092"; "b2:9092"] /\
  Split_comma "" = [""] /\ Split_comma ",a," = [""; "a"; ""].
Proof. repeat split. Qed.

Example receive_twice_constructs_once :
  let x := run Ref.handle
             (receiveAll Example.service [("q1", "g1"); ("q1", "g1")])
             Example.withMessage in
  (returned x).1 = [Ok Example.payload; Err (Upstream "nothing to receive")] /\
  constructions "q1@g1" (trace x) = 1%nat /\
  consumerMap (returned x).2 !! "q1@g1" = Some 0%nat.
Proof. vm_compute. repeat split. Qed.

Example denied_group_still_receives :
  (returned (run Ref.handle (ReceiveMsg Example.service "q1" "g1") Example.denied)).1
    = Ok Example.payload /\
  returned (run Ref.handle (SendMsg Example.service "q1" "g1" Example.payload)
              Example.denied) = None.
Proof. vm_compute. repeat split. Qed.

Example Create_twice_is_rejected :
  returned (run Ref.handle (Create Example.service "q1") Example.created)
    = Some (AlreadyExists "CreateQueue queue:q1 ") /\
  Ref.queues (Example.after (Create Example.service "q1") Example.created)
    = [("q1", 0)].
Proof. vm_compute. repeat split. Qed.

Example consumerId_key :
  consumerId "q1" "g1" = "q1@g1" /\ consumerId "a@b" "c" = consumerId "a" "b@c".
Proof. split; reflexivity. Qed.

(** * Further properties of the facade *)

(** X1: [Update] makes one call, the forced-refresh existence check, and
    leaves the collaborators as that check left them; it returns nil exactly
    when the check answered true, not-found when it answered false, and the
    registry's error otherwise. *)
Theorem Update_only_checks (W : Type) (h : handler W) (q : queueImp)
    (queue : string) (w : W) :
  UpdateRun queue (trace (run h (Update q queue) w))
    (returned (run h (Update q queue) w)) /\
  final (run h (Update q queue) w) = (h _ (ExistTopic queue true) w).2.
Proof.
  unfold Update, trace, returned, final. simp.
  destruct (h _ (ExistTopic queue true) w) as [r w1].
  destruct r as [[] | err]; simp; split; constructor.
Qed.

(** X2: [AddGroup], [UpdateGroup] and [DeleteGroup] write to the metadata
    store only after the forced-refresh check found the queue in the
    registry: they then make the one write, with the arguments as given, and
    return its answer; on a missing queue they return not-found and on a
    failed check its error, with no write either way. *)
Theorem group_writes_need_the_topic (W : Type) (h : handler W) (q : queueImp)
    (group queue : string) (write read : bool) (url : string)
    (ips : list string) (w : W) :
  GroupWriteRun queue (AddGroupConfig group queue write read url ips)
    (trace (run h (AddGroup q group queue write read url ips) w))
    (returned (run h (AddGroup q group queue write read url ips) w)) /\
  GroupWriteRun queue (UpdateGroupConfig group queue write read url ips)
    (trace (run h (UpdateGroup q group queue write read url ips) w))
    (returned (run h (UpdateGroup q group queue write read url ips) w)) /\
  GroupWriteRun queue (DeleteGroupConfig group queue)
    (trace (run h (DeleteGroup q group queue) w))
    (returned (run h (DeleteGroup q group queue) w)).
Proof.
  unfold AddGroup, UpdateGroup, DeleteGroup, trace, returned. simp.
  destruct (h _ (ExistTopic queue true) w) as [r w1].
  destruct r as [[] | err]; simp; repeat split; try constructor;
    answer; destruct r; simp; constructor.
Qed.

(** X3: [GetSingleGroup] on a queue the forced-refresh check finds hands
    back the metadata store's answer unchanged, a missing record included
    (no config and no error); on a queue it does not find it returns
    not-found without asking the metadata store. *)
Theorem GetSingleGroup_hands_back_the_answer (W : Type) (h : handler W)
    (q : queueImp) (group queue : string) (w : W) :
  AskRun queue (GetGroupConfig group queue)
    (trace (run h (GetSingleGroup q group queue) w))
    (returned (run h (GetSingleGroup q group queue) w)).
Proof.
  unfold GetSingleGroup, trace, returned. simp.
  answer. destruct r as [[] | err]; simp; try constructor.
  answer. constructor.
Qed.

(** X4: [GetSendMetrics] and [GetReceiveMetrics] on a queue the
    forced-refresh check finds pass queue, group, start, end and interval
    count to the monitor's query of the same direction and hand back its
    answer; otherwise they return the check's error or not-found and the
    monitor is not asked. *)
Theorem metrics_queries_are_passed_on (W : Type) (h : handler W) (q : queueImp)
    (queue group : string) (start stop intervalnum : Z) (w : W) :
  AskRun queue (MonitorGetSendMetrics queue group start stop intervalnum)
    (trace (run h (GetSendMetrics q queue group start stop intervalnum) w))
    (returned (run h (GetSendMetrics q queue group start stop intervalnum) w)) /\
  AskRun queue (MonitorGetReceiveMetrics queue group start stop intervalnum)
    (trace (run h (GetReceiveMetrics q queue group start stop intervalnum) w))
    (returned (run h (GetReceiveMetrics q queue group start stop intervalnum) w)).
Proof.
  unfold GetSendMetrics, GetReceiveMetrics, trace, returned. simp.
  destruct (h _ (ExistTopic queue true) w) as [r w1].
  destruct r as [[] | err]; simp; split; try constructor;
    answer; constructor.
Qed.

(** X5: when the lenient check does not answer that the queue exists,
    [SendMsg] makes no further call: nothing is produced and nothing is
    counted, and it returns an error, not-found if the check answered
    false. *)
Theorem SendMsg_refused_produces_nothing (W : Type) (h : handler W)
    (q : queueImp) (queue group : string) (data : bytes) (w : W) :
  (h _ (ExistTopic queue false) w).1 <> Ok true ->
  trace (run h (SendMsg q queue group data) w)
    = [Ev (ExistTopic queue false) (h _ (ExistTopic queue false) w).1] /\
  final (run h (SendMsg q queue group data) w) = (h _ (ExistTopic queue false) w).2 /\
  match (h _ (ExistTopic queue false) w).1 with
  | Ok _ => exists msg,
      returned (run h (SendMsg q queue group data) w) = Some (NotFound msg)
  | Err err => returned (run h (SendMsg q queue group data) w) = Some err
  end.
Proof.
  unfold SendMsg, trace, returned, final. simp.
  destruct (h _ (ExistTopic queue false) w) as [r w1]. cbn [fst snd].
  destruct r as [[] | err]; simp; intros Hne; [congruence | |];
    repeat split. eexists. reflexivity.
Qed.

Lemma SendMsg_refused_produces_nothing_witness :
  trace (run Ref.handle (SendMsg Example.service "q9" "g1" Example.payload)
           Example.withMessage)
    = [Ev (ExistTopic "q9" false) (Ok false)] /\
  Ref.produced (final (run Ref.handle
                         (SendMsg Example.service "q9" "g1" Example.payload)
                         Example.withMessage))
    = Ref.produced Example.withMessage.
Proof.
  destruct (SendMsg_refused_produces_nothing Ref.world Ref.handle Example.service
              "q9" "g1" Example.payload Example.withMessage) as (Ht & Hf & _).
  - vm_compute. discriminate.
  - split; [exact Ht | rewrite Hf; reflexivity].
Defined.

(** X6: [ReceiveMsg] counts one receive for (queue, group) exactly when it
    returns a payload, and counts nothing when it returns an error. *)
Theorem ReceiveMsg_counts_what_it_delivered (W : Type) (h : handler W)
    (q : queueImp) (queue group : string) (w : W) :
  receiveCounts (trace (run h (ReceiveMsg q queue group) w)) =
  match (returned (run h (ReceiveMsg q queue group) w)).1 with
  | Ok _ => [(queue, group, 1)]
  | Err _ => []
  end.
Proof.
  pose proof (Receive_runs h q queue group w) as H. cbn zeta in H.
  destruct (run h (ReceiveMsg q queue group) w) as [[[a q'] w'] tr].
  unfold trace, returned in *. cbn [fst snd] in *.
  destruct H as [err | msg | consumer tr answer Hc Hon | err Hc
                 | consumer tr answer Hc Hon]; try reflexivity;
    destruct Hon; reflexivity.
Qed.

Lemma lockAlong_app (t1 t2 : list event) (held held' : bool) :
  lockAlong held t1 = Some held' ->
  lockAlong held (t1 ++ t2) = lockAlong held' t2.
Proof.
  revert held. induction t1 as [| [R c r] t1 IH]; intros held.
  - cbn. congruence.
  - destruct c; cbn [app lockAlong]; try apply IH;
      destruct held; try discriminate; apply IH.
Qed.

Lemma Receive_lock (W : Type) (h : handler W) (q : queueImp)
    (queue group : string) (w : W) :
  lockAlong false (trace (run h (ReceiveMsg q queue group) w)) = Some false.
Proof.
  pose proof (Receive_runs h q queue group w) as H. cbn zeta in H.
  destruct (run h (ReceiveMsg q queue group) w) as [[[a q'] w'] tr].
  unfold trace, returned in *. cbn [fst snd] in *.
  destruct H as [err | msg | consumer tr answer Hc Hon | err Hc
                 | consumer tr answer Hc Hon]; try reflexivity;
    destruct Hon; reflexivity.
Qed.

(** X7: along every run of [ReceiveMsg], and along any sequence of them on
    one facade, the lock is taken only when free and released only when
    held, a session is constructed only under the lock, the receive is made
    only after the lock was released, and the lock is free when the call
    returns, on the error paths too. *)
Theorem ReceiveMsg_lock_discipline (W : Type) (h : handler W) (q : queueImp)
    (calls : list (string * string)) (w : W) :
  lockAlong false (trace (run h (receiveAll q calls) w)) = Some false.
Proof.
  revert q w. induction calls as [| [queue group] rest IH]; intros q w.
  - reflexivity.
  - cbn [receiveAll]. rewrite run_bind.
    pose proof (Receive_lock W h q queue group w) as H1.
    destruct (run h (ReceiveMsg q queue group) w) as [[a w1] t1].
    rewrite run_bind. specialize (IH a.2 w1).
    destruct (run h (receiveAll a.2 rest) w1) as [[b w2] t2].
    unfold trace in *. cbn [run fst snd] in *.
    rewrite app_nil_r. rewrite (lockAlong_app t1 t2 false false H1). exact IH.
Qed.

Lemma Receive_cache (W : Type) (h : handler W) (q : queueImp)
    (queue group : string) (w : W) :
  let q' := (returned (run h (ReceiveMsg q queue group) w)).2 in
  conf q' = conf q /\
  consumerMap q ⊆ consumerMap q' /\
  forall id, is_Some (consumerMap q' !! id) ->
             is_Some (consumerMap q !! id) \/ id = consumerId queue group.
Proof.
  pose proof (Receive_runs h q queue group w) as H. cbn zeta in *.
  destruct (run h (ReceiveMsg q queue group) w) as [[[a q'] w'] tr].
  unfold trace, returned in *. cbn [fst snd] in *.
  destruct H as [err | msg | consumer tr answer Hc Hon | err Hc
                 | consumer tr answer Hc Hon];
    try (split; [reflexivity | split; [reflexivity | intros id; auto]]).
  cbn [conf consumerMap]. split; [reflexivity |]. split.
  - apply insert_subseteq. exact Hc.
  - intros id. destruct (decide (id = consumerId queue group)) as [-> | Hne];
      [auto |]. rewrite lookup_insert_ne by congruence. auto.
Qed.

(** X8: the session cache only grows.  Over any sequence of [ReceiveMsg]
    calls on one facade the configuration is kept, every session cached
    before is still cached under its key with the same identity, and every
    key cached afterwards was cached before or is the key of one of the
    calls. *)
Theorem session_cache_only_grows (W : Type) (h : handler W) (q : queueImp)
    (calls : list (string * string)) (w : W) :
  let q' := (returned (run h (receiveAll q calls) w)).2 in
  conf q' = conf q /\
  consumerMap q ⊆ consumerMap q' /\
  forall id, is_Some (consumerMap q' !! id) ->
             is_Some (consumerMap q !! id) \/
             In id (map (fun c => consumerId c.1 c.2) calls).
Proof.
  revert q w. induction calls as [| [queue group] rest IH]; intros q w.
  - cbn. split; [reflexivity | split; [reflexivity | auto]].
  - cbn [receiveAll]. cbn zeta. rewrite run_bind.
    pose proof (Receive_cache W h q queue group w) as (Hc1 & Hs1 & Hk1).
    destruct (run h (ReceiveMsg q queue group) w) as [[a w1] t1].
    rewrite run_bind. specialize (IH a.2 w1). cbn zeta in IH.
    destruct IH as (Hc2 & Hs2 & Hk2).
    destruct (run h (receiveAll a.2 rest) w1) as [[b w2] t2].
    unfold returned in *. cbn [run fst snd map] in *.
    split; [congruence |]. split; [etrans; eassumption |].
    intros id Hid. destruct (Hk2 id Hid) as [Ha | Hin]; [| right; right; exact Hin].
    destruct (Hk1 id Ha) as [Hq | ->]; [left; exact Hq | right; left; reflexivity].
Qed.

Lemma createTimes_app (t1 t2 : list event) :
  createTimes (t1 ++ t2) = createTimes t1 ++ createTimes t2.
Proof.
  induction t1 as [| [R c r] t1 IH]; [reflexivity |].
  destruct c; cbn [app createTimes]; try assumption.
  destruct r as [ctime | err]; cbn [app]; congruence.
Qed.

Lemma readsMetadata_app (t1 t2 : list event) :
  forallb (eventIs (@readsMetadata)) t1 = true ->
  forallb (eventIs (@readsMetadata)) t2 = true ->
  forallb (eventIs (@readsMetadata)) (t1 ++ t2) = true.
Proof. intros H1 H2. rewrite forallb_app, H1, H2. reflexivity. Qed.

Lemma snoc_sorted {A : Type} (R : A -> A -> Prop) (l : list A) (x : A) :
  StronglySorted R l -> Forall (fun a => R a x) l -> StronglySorted R (l ++ [x]).
Proof.
  induction 1 as [| a l Hl IH Ha]; intros Hx.
  - repeat constructor.
  - apply Forall_cons in Hx as [Hax Hx]. cbn [app]. constructor.
    + apply IH. exact Hx.
    + apply Forall_app. split; [exact Ha | constructor; [exact Hax | constructor]].
Qed.

Section LookupLoops.
Context {W : Type} (h : handler W).

Lemma lookupGroupsOf_reads (queueName : string) (groupNames : list string) :
  forall (acc : list GroupConfig.t) (w : W),
    createTimes (trace (run h (lookupGroupsOf queueName groupNames acc) w)) = [] /\
    forallb (eventIs (@readsMetadata))
      (trace (run h (lookupGroupsOf queueName groupNames acc) w)) = true.
Proof.
  induction groupNames as [| groupName rest IH]; intros acc w.
  - split; reflexivity.
  - cbn [lookupGroupsOf]. simp. answer. destruct r as [[config |] | err]; simp.
    + specialize (IH (acc ++ [lookupConfig config]) w0).
      destruct (run h (lookupGroupsOf queueName rest _) w0) as [[a w1] tr].
      exact IH.
    + answer. destruct r. specialize (IH acc w1).
      destruct (run h (lookupGroupsOf queueName rest _) w1) as [[a w2] tr].
      exact IH.
    + split; reflexivity.
Qed.

Lemma lookupQueuesOf_reads (groupName : string) (queueNames : list string) :
  forall (acc : list GroupConfig.t) (w : W),
    forallb (eventIs (@readsMetadata))
      (trace (run h (lookupQueuesOf groupName queueNames acc) w)) = true.
Proof.
  induction queueNames as [| queueName rest IH]; intros acc w.
  - reflexivity.
  - cbn [lookupQueuesOf]. simp. answer. destruct r as [[config |] | err]; simp.
    + specialize (IH (acc ++ [lookupGroupConfig config]) w0).
      destruct (run h (lookupQueuesOf groupName rest _) w0) as [[a w1] tr].
      exact IH.
    + answer. destruct r. specialize (IH acc w1).
      destruct (run h (lookupQueuesOf groupName rest _) w1) as [[a w2] tr].
      exact IH.
    + reflexivity.
Qed.

Lemma lookupQueues_lists (queueMap : namesMap) :
  forall (acc : list GroupConfig.t) (infos : list QueueInfo.t) (w : W),
    exists new,
      (returned (run h (lookupQueues queueMap acc infos) w)).1 = infos ++ new /\
      map (fun qi => (QueueInfo.Queue qi, QueueInfo.Ctime qi)) new
        = createTimes (trace (run h (lookupQueues queueMap acc infos) w)) /\
      Forall (fun qi => QueueInfo.Length qi = 0) new /\
      map QueueInfo.Queue new `prefix_of` map fst queueMap /\
      ((returned (run h (lookupQueues queueMap acc infos) w)).2 = None ->
       map QueueInfo.Queue new = map fst queueMap) /\
      forallb (eventIs (@readsMetadata))
        (trace (run h (lookupQueues queueMap acc infos) w)) = true.
Proof.
  induction queueMap as [| [queueName groupNames] rest IH]; intros acc infos w.
  - exists []. cbn. rewrite app_nil_r. repeat split; try constructor.
    exists []. reflexivity.
  - cbn [lookupQueues]. rewrite run_bind.
    pose proof (lookupGroupsOf_reads queueName groupNames acc w) as (Ht1 & Hr1).
    destruct (run h (lookupGroupsOf queueName groupNames acc) w) as [[r w1] t1].
    unfold trace in Ht1, Hr1. cbn [fst snd] in Ht1, Hr1.
    destruct r as [out | err]; simp.
    + answer. destruct r as [ctime | err]; simp.
      * match goal with
        | |- context [run h (lookupQueues rest out ?infos') w0] =>
            destruct (IH out infos' w0) as (new & Hnew & Htimes & Hlen & Hpre & Hall & Hreads)
        end.
        destruct (run h (lookupQueues rest out _) w0) as [[a w2] t2].
        unfold returned, trace in *. cbn [fst snd] in *.
        eexists (_ :: new). rewrite Hnew, <- app_assoc. cbn [app map fst].
        split; [reflexivity |].
        rewrite createTimes_app, Ht1. cbn [app createTimes]. rewrite <- Htimes.
        split; [reflexivity |]. split; [constructor; [reflexivity | exact Hlen] |].
        split; [apply prefix_cons; exact Hpre |].
        split; [intros Hn; rewrite (Hall Hn); reflexivity |].
        apply readsMetadata_app; [exact Hr1 | exact Hreads].
      * exists []. unfold returned, trace. cbn [fst snd map].
        rewrite app_nil_r, createTimes_app, Ht1.
        repeat split; try constructor; try discriminate.
        -- apply prefix_nil.
        -- apply readsMetadata_app; [exact Hr1 | reflexivity].
    + exists []. unfold returned, trace. cbn [fst snd map].
      rewrite !app_nil_r. rewrite Ht1.
      repeat split; try constructor; try discriminate.
      * apply prefix_nil.
      * exact Hr1.
Qed.

Lemma lookupGroups_lists (groupMap : namesMap) :
  forall (acc : list GroupConfig.t) (infos : list GroupInfo.t) (w : W),
    exists new,
      (returned (run h (lookupGroups groupMap acc infos) w)).1 = infos ++ new /\
      map GroupInfo.Group new `prefix_of` map fst groupMap /\
      ((returned (run h (lookupGroups groupMap acc infos) w)).2 = None ->
       map GroupInfo.Group new = map fst groupMap) /\
      forallb (eventIs (@readsMetadata))
        (trace (run h (lookupGroups groupMap acc infos) w)) = true.
Proof.
  induction groupMap as [| [groupName queueNames] rest IH]; intros acc infos w.
  - exists []. cbn. rewrite app_nil_r. repeat split. exists []. reflexivity.
  - cbn [lookupGroups]. rewrite run_bind.
    pose proof (lookupQueuesOf_reads groupName queueNames acc w) as Hr1.
    destruct (run h (lookupQueuesOf groupName queueNames acc) w) as [[r w1] t1].
    unfold trace in Hr1. cbn [fst snd] in Hr1.
    destruct r as [out | err]; simp.
    + match goal with
      | |- context [run h (lookupGroups rest out ?infos') w1] =>
          destruct (IH out infos' w1) as (new & Hnew & Hpre & Hall & Hreads)
      end.
      destruct (run h (lookupGroups rest out _) w1) as [[a w2] t2].
      unfold returned, trace in *. cbn [fst snd] in *.
      eexists (_ :: new). rewrite Hnew, <- app_assoc. cbn [app map fst].
      split; [reflexivity |].
      split; [apply prefix_cons; exact Hpre |].
      split; [intros Hn; rewrite (Hall Hn); reflexivity |].
      apply readsMetadata_app; [exact Hr1 | exact Hreads].
    + exists []. unfold returned, trace. cbn [fst snd map].
      rewrite !app_nil_r.
      repeat split; try discriminate; [apply prefix_nil | exact Hr1].
Qed.

Lemma lookupQueues_carries (queueMap : namesMap) :
  forall (acc : list GroupConfig.t) (infos : list QueueInfo.t) (w : W),
    StronglySorted (fun a b => QueueInfo.Groups a `prefix_of` QueueInfo.Groups b) infos ->
    Forall (fun a => QueueInfo.Groups a `prefix_of` acc) infos ->
    StronglySorted (fun a b => QueueInfo.Groups a `prefix_of` QueueInfo.Groups b)
      (returned (run h (lookupQueues queueMap acc infos) w)).1.
Proof.
  induction queueMap as [| [queueName groupNames] rest IH]; intros acc infos w Hs Hacc.
  - exact Hs.
  - cbn [lookupQueues]. rewrite run_bind.
    pose proof (lookupGroupsOf_out h queueName groupNames acc w) as Hout.
    destruct (run h (lookupGroupsOf queueName groupNames acc) w) as [[r w1] t1].
    unfold returned, trace in Hout. cbn [fst snd] in Hout.
    destruct r as [out | err]; simp; [| exact Hs].
    specialize (Hout out eq_refl).
    assert (Forall (fun a => QueueInfo.Groups a `prefix_of` out) infos) as Hout'.
    { eapply Forall_impl; [exact Hacc |]. intros a Ha. cbn beta in Ha.
      etrans; [exact Ha |]. rewrite Hout. apply prefix_app_r. reflexivity. }
    answer. destruct r as [ctime | err]; simp; [| exact Hs].
    match goal with
    | |- context [run h (lookupQueues rest out ?infos') w0] =>
        specialize (IH out infos' w0)
    end.
    destruct (run h (lookupQueues rest out _) w0) as [[a w2] t2].
    unfold returned in *. cbn [fst snd] in *. apply IH.
    + apply snoc_sorted; [exact Hs | exact Hout'].
    + apply Forall_app. split; [exact Hout' |]. constructor; [reflexivity | constructor].
Qed.

Lemma lookupGroups_carries (groupMap : namesMap) :
  forall (acc : list GroupConfig.t) (infos : list GroupInfo.t) (w : W),
    StronglySorted (fun a b => GroupInfo.Queues a `prefix_of` GroupInfo.Queues b) infos ->
    Forall (fun a => GroupInfo.Queues a `prefix_of` acc) infos ->
    StronglySorted (fun a b => GroupInfo.Queues a `prefix_of` GroupInfo.Queues b)
      (returned (run h (lookupGroups groupMap acc infos) w)).1.
Proof.
  induction groupMap as [| [groupName queueNames] rest IH]; intros acc infos w Hs Hacc.
  - exact Hs.
  - cbn [lookupGroups]. rewrite run_bind.
    pose proof (lookupQueuesOf_out h groupName queueNames acc w) as Hout.
    destruct (run h (lookupQueuesOf groupName queueNames acc) w) as [[r w1] t1].
    unfold returned, trace in Hout. cbn [fst snd] in Hout.
    destruct r as [out | err]; simp; [| exact Hs].
    specialize (Hout out eq_refl).
    assert (Forall (fun a => GroupInfo.Queues a `prefix_of` out) infos) as Hout'.
    { eapply Forall_impl; [exact Hacc |]. intros a Ha. cbn beta in Ha.
      etrans; [exact Ha |]. rewrite Hout. apply prefix_app_r. reflexivity. }
    match goal with
    | |- context [run h (lookupGroups rest out ?infos') w1] =>
        specialize (IH out infos' w1)
    end.
    destruct (run h (lookupGroups rest out _) w1) as [[a w2] t2].
    unfold returned in *. cbn [fst snd] in *. apply IH.
    + apply snoc_sorted; [exact Hs | exact Hout'].
    + apply Forall_app. split; [exact Hout' |]. constructor; [reflexivity | constructor].
Qed.

End LookupLoops.

Lemma last_later {A : Type} (x y : A) (l : list A) :
  last l = Some y -> last (x :: l) = Some y.
Proof. intros H. rewrite last_cons, H. reflexivity. Qed.

Lemma last_after {A : Type} (l1 l2 : list A) (y : A) :
  last l2 = Some y -> last (l1 ++ l2) = Some y.
Proof. intros H. rewrite last_app, H. reflexivity. Qed.

Section LookupFailures.
Context {W : Type} (h : handler W).

Lemma lookupGroupsOf_failed (queueName : string) (groupNames : list string) :
  forall (acc : list GroupConfig.t) (w : W) (err : error),
    returned (run h (lookupGroupsOf queueName groupNames acc) w) = Err err ->
    exists groupName,
      In groupName groupNames /\
      last (trace (run h (lookupGroupsOf queueName groupNames acc) w))
        = Some (Ev (GetGroupConfig groupName queueName) (Err err)).
Proof.
  induction groupNames as [| groupName rest IH]; intros acc w err.
  - cbn. discriminate.
  - cbn [lookupGroupsOf]. simp. answer. destruct r as [[config |] | err0]; simp.
    + specialize (IH (acc ++ [lookupConfig config]) w0 err).
      destruct (run h (lookupGroupsOf queueName rest _) w0) as [[a w1] tr].
      unfold returned, trace in *. cbn [fst snd] in *. intros Ha.
      destruct (IH Ha) as (g & Hin & Hlast).
      exists g. split; [right; exact Hin | apply last_later; exact Hlast].
    + answer. destruct r. specialize (IH acc w1 err).
      destruct (run h (lookupGroupsOf queueName rest _) w1) as [[a w2] tr].
      unfold returned, trace in *. cbn [fst snd] in *. intros Ha.
      destruct (IH Ha) as (g & Hin & Hlast).
      exists g. split; [right; exact Hin | do 2 apply last_later; exact Hlast].
    + unfold returned, trace, Trace. cbn [fst snd]. intros [= <-].
      exists groupName. split; [left; reflexivity | reflexivity].
Qed.

Lemma lookupQueuesOf_failed (groupName : string) (queueNames : list string) :
  forall (acc : list GroupConfig.t) (w : W) (err : error),
    returned (run h (lookupQueuesOf groupName queueNames acc) w) = Err err ->
    exists queueName,
      In queueName queueNames /\
      last (trace (run h (lookupQueuesOf groupName queueNames acc) w))
        = Some (Ev (GetGroupConfig groupName queueName) (Err err)).
Proof.
  induction queueNames as [| queueName rest IH]; intros acc w err.
  - cbn. discriminate.
  - cbn [lookupQueuesOf]. simp. answer. destruct r as [[config |] | err0]; simp.
    + specialize (IH (acc ++ [lookupGroupConfig config]) w0 err).
      destruct (run h (lookupQueuesOf groupName rest _) w0) as [[a w1] tr].
      unfold returned, trace in *. cbn [fst snd] in *. intros Ha.
      destruct (IH Ha) as (g & Hin & Hlast).
      exists g. split; [right; exact Hin | apply last_later; exact Hlast].
    + answer. destruct r. specialize (IH acc w1 err).
      destruct (run h (lookupQueuesOf groupName rest _) w1) as [[a w2] tr].
      unfold returned, trace in *. cbn [fst snd] in *. intros Ha.
      destruct (IH Ha) as (g & Hin & Hlast).
      exists g. split; [right; exact Hin | do 2 apply last_later; exact Hlast].
    + unfold returned, trace, Trace. cbn [fst snd]. intros [= <-].
      exists queueName. split; [left; reflexivity | reflexivity].
Qed.

Lemma lookupQueues_failed (queueMap : namesMap) :
  forall (acc : list GroupConfig.t) (infos : list QueueInfo.t) (w : W) (err : error),
    (returned (run h (lookupQueues queueMap acc infos) w)).2 = Some err ->
    exists done queueName groupNames rest new,
      queueMap = done ++ (queueName, groupNames) :: rest /\
      (returned (run h (lookupQueues queueMap acc infos) w)).1 = infos ++ new /\
      map QueueInfo.Queue new = map fst done /\
      ((exists groupName,
          In groupName groupNames /\
          last (trace (run h (lookupQueues queueMap acc infos) w))
            = Some (Ev (GetGroupConfig groupName queueName) (Err err))) \/
       last (trace (run h (lookupQueues queueMap acc infos) w))
         = Some (Ev (QueueCreateTime queueName) (Err err))).
Proof.
  induction queueMap as [| [queueName groupNames] rest IH]; intros acc infos w err.
  - cbn. discriminate.
  - cbn [lookupQueues]. rewrite run_bind.
    pose proof (lookupGroupsOf_failed queueName groupNames acc w) as Hfail.
    destruct (run h (lookupGroupsOf queueName groupNames acc) w) as [[r w1] t1].
    unfold returned, trace in Hfail. cbn [fst snd] in Hfail.
    destruct r as [out | err0]; simp.
    + answer. destruct r as [ctime | err0]; simp.
      * match goal with
        | |- context [run h (lookupQueues rest out ?infos') w0] =>
            specialize (IH out infos' w0 err)
        end.
        destruct (run h (lookupQueues rest out _) w0) as [[a w2] t2].
        unfold returned, trace in *. cbn [fst snd] in *. intros Ha.
        destruct (IH Ha) as (done & qn & gns & rest' & new & -> & Hnew & Hnames & Hlast).
        exists ((queueName, groupNames) :: done), qn, gns, rest'.
        eexists (_ :: new). rewrite Hnew, <- app_assoc. cbn [app map fst].
        split; [reflexivity |]. split; [reflexivity |].
        split; [rewrite Hnames; reflexivity |].
        destruct Hlast as [(g & Hin & Hlast) | Hlast];
          [left; exists g; split; [exact Hin |] | right];
          apply last_after, last_later; exact Hlast.
      * unfold returned, trace, Trace. cbn [fst snd]. intros [= <-].
        exists [], queueName, groupNames, rest, []. rewrite app_nil_r.
        repeat split. right. apply last_snoc.
    + unfold returned, trace. cbn [fst snd]. intros [= <-].
      destruct (Hfail err0 eq_refl) as (g & Hin & Hlast).
      exists [], queueName, groupNames, rest, []. rewrite !app_nil_r.
      repeat split. left. exists g. split; assumption.
Qed.

Lemma lookupGroups_failed (groupMap : namesMap) :
  forall (acc : list GroupConfig.t) (infos : list GroupInfo.t) (w : W) (err : error),
    (returned (run h (lookupGroups groupMap acc infos) w)).2 = Some err ->
    exists done groupName queueNames rest new queueName,
      groupMap = done ++ (groupName, queueNames) :: rest /\
      (returned (run h (lookupGroups groupMap acc infos) w)).1 = infos ++ new /\
      map GroupInfo.Group new = map fst done /\
      In queueName queueNames /\
      last (trace (run h (lookupGroups groupMap acc infos) w))
        = Some (Ev (GetGroupConfig groupName queueName) (Err err)).
Proof.
  induction groupMap as [| [groupName queueNames] rest IH]; intros acc infos w err.
  - cbn. discriminate.
  - cbn [lookupGroups]. rewrite run_bind.
    pose proof (lookupQueuesOf_failed groupName queueNames acc w) as Hfail.
    destruct (run h (lookupQueuesOf groupName queueNames acc) w) as [[r w1] t1].
    unfold returned, trace in Hfail. cbn [fst snd] in Hfail.
    destruct r as [out | err0]; simp.
    + match goal with
      | |- context [run h (lookupGroups rest out ?infos') w1] =>
          specialize (IH out infos' w1 err)
      end.
      destruct (run h (lookupGroups rest out _) w1) as [[a w2] t2].
      unfold returned, trace in *. cbn [fst snd] in *. intros Ha.
      destruct (IH Ha)
        as (done & gn & qns & rest' & new & qn & -> & Hnew & Hnames & Hin & Hlast).
      exists ((groupName, queueNames) :: done), gn, qns, rest'.
      eexists (_ :: new), qn. rewrite Hnew, <- app_assoc. cbn [app map fst].
      split; [reflexivity |]. split; [reflexivity |].
      split; [rewrite Hnames; reflexivity |]. split; [exact Hin |].
      apply last_after. exact Hlast.
    + unfold returned, trace. cbn [fst snd]. intros [= <-].
      destruct (Hfail err0 eq_refl) as (qn & Hin & Hlast).
      exists [], groupName, queueNames, rest, [], qn. rewrite !app_nil_r.
      repeat split; assumption.
Qed.

End LookupFailures.

(** X9: [Lookup] of a queue, with no group given, that the queue map does
    not list returns the empty list and no error after the one call that
    fetched the map; the creation time is not asked for. *)
Theorem Lookup_of_unlisted_queue (W : Type) (h : handler W) (q : queueImp)
    (queue : string) (w w1 : W) (queueMap : namesMap) :
  queue <> "" ->
  h _ GetQueueMap w = (Ok queueMap, w1) ->
  namesMap_lookup queueMap queue = None ->
  run h (Lookup q queue "") w = (([], None), w1, [Ev GetQueueMap (Ok queueMap)]).
Proof.
  intros Hq Hmap Hnone. unfold Lookup. cbn zeta.
  destruct (String.eqb_spec queue ""); [contradiction |].
  cbn [String.eqb]. simp. rewrite Hmap. simp. rewrite Hnone. reflexivity.
Qed.

Lemma Lookup_of_unlisted_queue_witness :
  run Ref.handle (Lookup Example.service "q9" "") Example.twoQueues
    = (([], None), Example.twoQueues,
       [Ev GetQueueMap (Ok [("q1", ["g1"]); ("q2", ["g2"])])]).
Proof.
  apply Lookup_of_unlisted_queue; [discriminate | reflexivity | reflexivity].
Defined.

(** X10: [Lookup] with both names given asks the metadata store for that one
    group record and for the queue's creation time, and nothing else.  If
    either call fails it returns that error with an empty list; otherwise one
    entry for the queue, with the time answered and length 0, whose groups
    are the copy of the record, or no group at all when the store has no
    record (which is not an error). *)
Theorem Lookup_of_one_group (W : Type) (h : handler W) (q : queueImp)
    (queue group : string) (w : W) :
  queue <> "" -> group <> "" ->
  LookupOneRun queue group (trace (run h (Lookup q queue group) w))
    (returned (run h (Lookup q queue group) w)).
Proof.
  intros Hq Hg. unfold Lookup, trace, returned. cbn zeta.
  destruct (String.eqb_spec queue ""); [contradiction |].
  destruct (String.eqb_spec group ""); [contradiction |].
  simp. answer. destruct r as [config | err]; simp; [| constructor].
  answer. destruct r as [ctime | err]; simp; [| constructor].
  destruct config; constructor.
Qed.

Lemma Lookup_of_one_group_witness :
  LookupOneRun "q1" "g9"
    (trace (run Ref.handle (Lookup Example.service "q1" "g9") Example.twoQueues))
    ([ {| QueueInfo.Queue := "q1"; QueueInfo.Ctime := 0; QueueInfo.Length := 0;
          QueueInfo.Groups := [] |} ], None).
Proof.
  apply (Lookup_of_one_group Ref.world Ref.handle Example.service "q1" "g9"
           Example.twoQueues); discriminate.
Defined.

(** X11: [Lookup] with an empty queue name, whatever the group name, walks
    the queue map in the order of the iteration: the entries it returns are
    named by the first keys of the map, in that order, each with the
    creation time the store answered for that queue and length 0; with no
    error there is one entry per key.  When it returns an error, that error
    is the one the last call of the run answered, a read of a group record
    of some queue of the map or the read of that queue's creation time, and
    the entries returned with it are those of the keys before that queue. *)
Theorem Lookup_all_lists_the_queue_map (W : Type) (h : handler W) (q : queueImp)
    (group : string) (w w1 : W) (queueMap : namesMap) :
  h _ GetQueueMap w = (Ok queueMap, w1) ->
  map (fun qi => (QueueInfo.Queue qi, QueueInfo.Ctime qi))
      (returned (run h (Lookup q "" group) w)).1
    = createTimes (trace (run h (Lookup q "" group) w)) /\
  Forall (fun qi => QueueInfo.Length qi = 0)
    (returned (run h (Lookup q "" group) w)).1 /\
  map QueueInfo.Queue (returned (run h (Lookup q "" group) w)).1
    `prefix_of` map fst queueMap /\
  ((returned (run h (Lookup q "" group) w)).2 = None ->
   map QueueInfo.Queue (returned (run h (Lookup q "" group) w)).1
     = map fst queueMap) /\
  (forall err : error,
     (returned (run h (Lookup q "" group) w)).2 = Some err ->
     exists done queueName groupNames rest,
       queueMap = done ++ (queueName, groupNames) :: rest /\
       map QueueInfo.Queue (returned (run h (Lookup q "" group) w)).1
         = map fst done /\
       ((exists groupName,
           In groupName groupNames /\
           last (trace (run h (Lookup q "" group) w))
             = Some (Ev (GetGroupConfig groupName queueName) (Err err))) \/
        last (trace (run h (Lookup q "" group) w))
          = Some (Ev (QueueCreateTime queueName) (Err err)))).
Proof.
  intros Hmap. unfold Lookup. cbn zeta. cbn [String.eqb]. simp. rewrite Hmap. simp.
  destruct (lookupQueues_lists h queueMap [] [] w1)
    as (new & Hnew & Htimes & Hlen & Hpre & Hall & _).
  pose proof (lookupQueues_failed h queueMap [] [] w1) as Hfail.
  destruct (run h (lookupQueues queueMap [] []) w1) as [[a w2] tr].
  unfold returned, trace in *. cbn [fst snd app createTimes] in *. subst.
  repeat split; try assumption.
  intros err Herr.
  destruct (Hfail err Herr) as (done & qn & gns & rest & new' & -> & -> & Hnames & Hlast).
  exists done, qn, gns, rest. split; [reflexivity |]. split; [exact Hnames |].
  destruct Hlast as [(g & Hin & Hlast) | Hlast];
    [left; exists g; split; [exact Hin |] | right];
    apply last_later; exact Hlast.
Qed.

Lemma Lookup_all_lists_the_queue_map_witness :
  map QueueInfo.Queue
      (returned (run Ref.handle (Lookup Example.service "" "g1") Example.twoQueues)).1
    = ["q1"; "q2"].
Proof.
  destruct (Lookup_all_lists_the_queue_map Ref.world Ref.handle Example.service "g1"
              Example.twoQueues Example.twoQueues
              [("q1", ["g1"]); ("q2", ["g2"])] eq_refl) as (_ & _ & _ & H & _).
  apply H. vm_compute. reflexivity.
Defined.

(** X12: in the list [Lookup] returns, the groups of an entry are a prefix of
    the groups of every later entry: the configs read for one queue stay in
    the slice when the next queue is processed. *)
Theorem Lookup_groups_accumulate (W : Type) (h : handler W) (q : queueImp)
    (queue group : string) (w : W) :
  StronglySorted (fun a b => QueueInfo.Groups a `prefix_of` QueueInfo.Groups b)
    (returned (run h (Lookup q queue group) w)).1.
Proof.
  unfold Lookup. cbn zeta.
  destruct (String.eqb queue ""); [| destruct (String.eqb group "")]; simp.
  - answer. destruct r as [queueMap | err]; simp; [| constructor].
    pose proof (lookupQueues_carries h queueMap [] [] w0) as H.
    destruct (run h (lookupQueues queueMap [] []) w0) as [[a w1] tr].
    apply H; constructor.
  - answer. destruct r as [queueMap | err]; simp; [| constructor].
    destruct (namesMap_lookup queueMap queue) as [groupNames |]; simp; [| constructor].
    rewrite run_bind.
    destruct (run h (lookupGroupsOf queue groupNames []) w0) as [[r w1] t1].
    destruct r as [out | err]; simp; [| constructor].
    answer. destruct r as [ctime | err]; simp; repeat constructor.
  - answer. destruct r as [config | err]; simp; [| constructor].
    answer. destruct r as [ctime | err]; simp; repeat constructor.
Qed.

(** X13: [LookupGroup] of a group that the group map does not list returns
    the empty list and no error after the one call that fetched the map. *)
Theorem LookupGroup_of_unlisted_group (W : Type) (h : handler W) (q : queueImp)
    (group : string) (w w1 : W) (groupMap : namesMap) :
  group <> "" ->
  h _ GetGroupMap w = (Ok groupMap, w1) ->
  namesMap_lookup groupMap group = None ->
  run h (LookupGroup q group) w = (([], None), w1, [Ev GetGroupMap (Ok groupMap)]).
Proof.
  intros Hg Hmap Hnone. unfold LookupGroup. cbn zeta.
  destruct (String.eqb_spec group ""); [contradiction |].
  simp. rewrite Hmap. simp. rewrite Hnone. reflexivity.
Qed.

Lemma LookupGroup_of_unlisted_group_witness :
  run Ref.handle (LookupGroup Example.service "g9") Example.twoQueues
    = (([], None), Example.twoQueues,
       [Ev GetGroupMap (Ok [("g1", ["q1"]); ("g2", ["q2"])])]).
Proof.
  apply LookupGroup_of_unlisted_group; [discriminate | reflexivity | reflexivity].
Defined.

(** X14: [LookupGroup] with an empty group name walks the group map in the
    order of the iteration: the entries it returns are named by the first
    keys of the map, in that order, one per key when there is no error.
    When it returns an error, that error is the one the last call of the run
    answered, the read of the record of some group of the map for one of
    its queues, and the entries returned with it are those of the keys
    before that group. *)
Theorem LookupGroup_all_lists_the_group_map (W : Type) (h : handler W)
    (q : queueImp) (w w1 : W) (groupMap : namesMap) :
  h _ GetGroupMap w = (Ok groupMap, w1) ->
  map GroupInfo.Group (returned (run h (LookupGroup q "") w)).1
    `prefix_of` map fst groupMap /\
  ((returned (run h (LookupGroup q "") w)).2 = None ->
   map GroupInfo.Group (returned (run h (LookupGroup q "") w)).1
     = map fst groupMap) /\
  (forall err : error,
     (returned (run h (LookupGroup q "") w)).2 = Some err ->
     exists done groupName queueNames rest queueName,
       groupMap = done ++ (groupName, queueNames) :: rest /\
       map GroupInfo.Group (returned (run h (LookupGroup q "") w)).1
         = map fst done /\
       In queueName queueNames /\
       last (trace (run h (LookupGroup q "") w))
         = Some (Ev (GetGroupConfig groupName queueName) (Err err))).
Proof.
  intros Hmap. unfold LookupGroup. cbn zeta. cbn [String.eqb]. simp.
  rewrite Hmap. simp.
  destruct (lookupGroups_lists h groupMap [] [] w1) as (new & Hnew & Hpre & Hall & _).
  pose proof (lookupGroups_failed h groupMap [] [] w1) as Hfail.
  destruct (run h (lookupGroups groupMap [] []) w1) as [[a w2] tr].
  unfold returned, trace in *. cbn [fst snd app] in *. subst.
  repeat split; try assumption.
  intros err Herr.
  destruct (Hfail err Herr)
    as (done & gn & qns & rest & new' & qn & -> & -> & Hnames & Hin & Hlast).
  exists done, gn, qns, rest, qn. split; [reflexivity |].
  split; [exact Hnames |]. split; [exact Hin |].
  apply last_later. exact Hlast.
Qed.

Lemma LookupGroup_all_lists_the_group_map_witness :
  map GroupInfo.Group
      (returned (run Ref.handle (LookupGroup Example.service "") Example.twoQueues)).1
    = ["g1"; "g2"].
Proof.
  destruct (LookupGroup_all_lists_the_group_map Ref.world Ref.handle Example.service
              Example.twoQueues Example.twoQueues
              [("g1", ["q1"]); ("g2", ["q2"])] eq_refl) as (_ & H & _).
  apply H. vm_compute. reflexivity.
Defined.

(** X15: in the list [LookupGroup] returns, the queue configs of an entry are
    a prefix of the queue configs of every later entry: the configs read for
    one group stay in the slice when the next group is processed. *)
Theorem LookupGroup_queues_accumulate (W : Type) (h : handler W) (q : queueImp)
    (group : string) (w : W) :
  StronglySorted (fun a b => GroupInfo.Queues a `prefix_of` GroupInfo.Queues b)
    (returned (run h (LookupGroup q group) w)).1.
Proof.
  unfold LookupGroup. cbn zeta. destruct (String.eqb group ""); simp.
  - answer. destruct r as [groupMap | err]; simp; [| constructor].
    pose proof (lookupGroups_carries h groupMap [] [] w0) as H.
    destruct (run h (lookupGroups groupMap [] []) w0) as [[a w1] tr].
    apply H; constructor.
  - answer. destruct r as [groupMap | err]; simp; [| constructor].
    destruct (namesMap_lookup groupMap group) as [queueNames |]; simp; [| constructor].
    rewrite run_bind.
    destruct (run h (lookupQueuesOf group queueNames []) w0) as [[r w1] t1].
    destruct r as [out | err]; simp; repeat constructor.
Qed.

Lemma readsMetadata_only (tr : list event) :
  forallb (eventIs (@readsMetadata)) tr = true ->
  existChecks tr = [] /\ existsb (eventIs (@writes)) tr = false.
Proof.
  induction tr as [| [R c r] tr IH]; [split; reflexivity |].
  cbn [forallb eventIs]. intros H. apply andb_true_iff in H as [Hc Htr].
  destruct c; try discriminate Hc; cbn [existChecks existsb eventIs writes orb];
    exact (IH Htr).
Qed.

(** X16: [Lookup] and [LookupGroup] only read the metadata store (the two
    name maps, group records, creation times) and log: they never ask the
    registry whether a topic exists, and they never write to a store. *)
Theorem lookups_only_read_metadata (W : Type) (h : handler W) (q : queueImp)
    (queue group : string) (w : W) :
  (forallb (eventIs (@readsMetadata)) (trace (run h (Lookup q queue group) w)) = true /\
   existChecks (trace (run h (Lookup q queue group) w)) = [] /\
   existsb (eventIs (@writes)) (trace (run h (Lookup q queue group) w)) = false) /\
  (forallb (eventIs (@readsMetadata)) (trace (run h (LookupGroup q group) w)) = true /\
   existChecks (trace (run h (LookupGroup q group) w)) = [] /\
   existsb (eventIs (@writes)) (trace (run h (LookupGroup q group) w)) = false).
Proof.
  assert (forallb (eventIs (@readsMetadata)) (trace (run h (Lookup q queue group) w)) = true)
    as HL.
  { unfold Lookup. cbn zeta.
    destruct (String.eqb queue ""); [| destruct (String.eqb group "")]; simp.
    - answer. destruct r as [queueMap | err]; simp; [| reflexivity].
      destruct (lookupQueues_lists h queueMap [] [] w0) as (new & _ & _ & _ & _ & _ & H).
      destruct (run h (lookupQueues queueMap [] []) w0) as [[a w1] tr]. exact H.
    - answer. destruct r as [queueMap | err]; simp; [| reflexivity].
      destruct (namesMap_lookup queueMap queue) as [groupNames |]; simp; [| reflexivity].
      rewrite run_bind.
      pose proof (lookupGroupsOf_reads h queue groupNames [] w0) as (_ & H).
      destruct (run h (lookupGroupsOf queue groupNames []) w0) as [[r w1] t1].
      unfold trace in *. cbn [fst snd] in *.
      destruct r as [out | err]; simp.
      + answer. destruct r as [ctime | err]; simp;
          (apply readsMetadata_app; [exact H | reflexivity]).
      + apply readsMetadata_app; [exact H | reflexivity].
    - answer. destruct r as [config | err]; simp; [| reflexivity].
      answer. destruct r as [ctime | err]; reflexivity. }
  assert (forallb (eventIs (@readsMetadata)) (trace (run h (LookupGroup q group) w)) = true)
    as HG.
  { unfold LookupGroup. cbn zeta. destruct (String.eqb group ""); simp.
    - answer. destruct r as [groupMap | err]; simp; [| reflexivity].
      destruct (lookupGroups_lists h groupMap [] [] w0) as (new & _ & _ & _ & H).
      destruct (run h (lookupGroups groupMap [] []) w0) as [[a w1] tr]. exact H.
    - answer. destruct r as [groupMap | err]; simp; [| reflexivity].
      destruct (namesMap_lookup groupMap group) as [queueNames |]; simp; [| reflexivity].
      rewrite run_bind.
      pose proof (lookupQueuesOf_reads h group queueNames [] w0) as H.
      destruct (run h (lookupQueuesOf group queueNames []) w0) as [[r w1] t1].
      unfold trace in *. cbn [fst snd] in *.
      destruct r as [out | err]; simp;
        (apply readsMetadata_app; [exact H | reflexivity]). }
  split; (split; [assumption | apply readsMetadata_only; assumption]).
Qed.

Lemma Split_comma_nonempty (s : string) : Split_comma s <> [].
Proof.
  destruct s as [| a s]; cbn [Split_comma]; [discriminate |].
  destruct (Ascii.eqb a ","); [discriminate |].
  destruct (Split_comma s); discriminate.
Qed.

Lemma Join_Split_comma (s : string) : Join_comma (Split_comma s) = s.
Proof.
  induction s as [| a s IH]; [reflexivity |].
  cbn [Split_comma]. destruct (Ascii.eqb_spec a ",") as [-> | Hne].
  - pose proof (Split_comma_nonempty s) as Hs.
    destruct (Split_comma s) as [| p l]; [contradiction |].
    rewrite <- IH. reflexivity.
  - pose proof (Split_comma_nonempty s) as Hs.
    destruct (Split_comma s) as [| p l]; [contradiction |].
    rewrite <- IH. destruct l; reflexivity.
Qed.

Lemma Split_comma_pieces (s : string) :
  Forall (fun p => hasChar "," p = false) (Split_comma s).
Proof.
  induction s as [| a s IH]; [repeat constructor |].
  cbn [Split_comma]. destruct (Ascii.eqb a ",") eqn:E.
  - constructor; [reflexivity | exact IH].
  - pose proof (Split_comma_nonempty s) as Hs.
    destruct (Split_comma s) as [| p l]; [contradiction |].
    apply Forall_cons in IH as [Hp Hl]. constructor; [| exact Hl].
    cbn [hasChar]. rewrite Ascii.eqb_sym, E, Hp. reflexivity.
Qed.

(** X17: every broker address list that [ReceiveMsg] opens a session with is
    the configured [KafkaBrokerAddr] cut at its commas: joined by commas it
    gives the configured string back, it is never empty (an empty setting
    gives the one empty address), and no address in it holds a comma. *)
Theorem ReceiveMsg_broker_addresses (W : Type) (h : handler W) (q : queueImp)
    (queue group : string) (w : W) :
  Forall (fun addrs =>
            Join_comma addrs = Config.KafkaBrokerAddr (conf q) /\
            addrs <> [] /\
            Forall (fun a => hasChar "," a = false) addrs)
         (brokerLists (trace (run h (ReceiveMsg q queue group) w))).
Proof.
  pose proof (Receive_runs h q queue group w) as H. cbn zeta in H.
  destruct (run h (ReceiveMsg q queue group) w) as [[[a q'] w'] tr].
  unfold trace, returned in *. cbn [fst snd] in *.
  assert (Join_comma (Split_comma (Config.KafkaBrokerAddr (conf q)))
            = Config.KafkaBrokerAddr (conf q) /\
          Split_comma (Config.KafkaBrokerAddr (conf q)) <> [] /\
          Forall (fun a => hasChar "," a = false)
            (Split_comma (Config.KafkaBrokerAddr (conf q)))) as Hsplit.
  { split; [apply Join_Split_comma |].
    split; [apply Split_comma_nonempty | apply Split_comma_pieces]. }
  destruct H as [err | msg | consumer tr answer Hc Hon | err Hc
                 | consumer tr answer Hc Hon];
    try (destruct Hon); cbn [brokerLists]; repeat constructor; apply Hsplit.
Qed.

Lemma append_nil_l (s : string) : "" +:+ s = s.
Proof. reflexivity. Qed.

Lemma append_cons (a : ascii) (s t : string) :
  String a s +:+ t = String a (s +:+ t).
Proof. reflexivity. Qed.

(** X18: the cache key tells two (queue, group) pairs apart when neither
    queue name holds an "@": equal keys then mean equal queues and equal
    groups. *)
Theorem consumerId_tells_pairs_apart (queue1 group1 queue2 group2 : string) :
  hasChar "@" queue1 = false ->
  hasChar "@" queue2 = false ->
  consumerId queue1 group1 = consumerId queue2 group2 ->
  queue1 = queue2 /\ group1 = group2.
Proof.
  unfold consumerId. revert queue2.
  induction queue1 as [| a queue1 IH]; intros [| b queue2] H1 H2 Heq;
    rewrite ?append_cons, ?append_nil_l in Heq.
  - injection Heq as Heq. subst. split; reflexivity.
  - injection Heq as <- _. cbn in H2. discriminate H2.
  - injection Heq as -> _. cbn in H1. discriminate H1.
  - injection Heq as -> Heq. cbn [hasChar] in H1, H2.
    apply orb_false_iff in H1 as [_ H1]. apply orb_false_iff in H2 as [_ H2].
    destruct (IH queue2 H1 H2 Heq) as [-> ->]. split; reflexivity.
Qed.

Lemma consumerId_tells_pairs_apart_witness :
  hasChar "@" "q1" = false /\ ("q1" = "q1" /\ "g1" = "g1").
Proof.
  split; [reflexivity |].
  apply (consumerId_tells_pairs_apart "q1" "g1" "q1" "g1"); reflexivity.
Defined.

Lemma append_shifts (s t u : string) : (s +:+ t) +:+ u = s +:+ (t +:+ u).
Proof.
  induction s as [| a s IH]; [reflexivity |].
  rewrite !append_cons, IH. reflexivity.
Qed.

Lemma consumerId_shifts (a b c : string) :
  consumerId (a +:+ "@" +:+ b) c = consumerId a (b +:+ "@" +:+ c).
Proof. unfold consumerId. rewrite append_shifts. reflexivity. Qed.

(** X19: the cache key does not tell apart the pairs (a@b, c) and (a, b@c).
    With a session cached for the first, [ReceiveMsg] for the second, once
    the lenient check finds the queue a, constructs no session: it receives
    on the session opened for the first pair and leaves the cache as it
    was. *)
Theorem colliding_pairs_share_a_session (W : Type) (h : handler W)
    (q : queueImp) (a b c : string) (consumer : Consumer) (w w1 : W) :
  consumerMap q !! consumerId (a +:+ "@" +:+ b) c = Some consumer ->
  h _ (ExistTopic a false) w = (Ok true, w1) ->
  exists tr,
    trace (run h (ReceiveMsg q a (b +:+ "@" +:+ c)) w)
      = Ev (ExistTopic a false) (Ok true) :: Ev Lock tt :: tr /\
    ReceiveOn a (b +:+ "@" +:+ c) consumer tr
      (returned (run h (ReceiveMsg q a (b +:+ "@" +:+ c)) w)).1 /\
    (returned (run h (ReceiveMsg q a (b +:+ "@" +:+ c)) w)).2 = q.
Proof.
  intros Hc He. rewrite consumerId_shifts in Hc.
  unfold ReceiveMsg, trace, returned. simp. rewrite He. simp.
  answer. destruct r. rewrite Hc. simp.
  answer. destruct r. answer. destruct r as [data | err]; simp.
  - answer. destruct r. eexists. split; [reflexivity |].
    split; [constructor | reflexivity].
  - eexists. split; [reflexivity |]. split; [constructor | reflexivity].
Qed.

Lemma colliding_pairs_share_a_session_witness :
  exists tr,
    trace (run Ref.handle (ReceiveMsg sharing "a" "b@c") seenA)
      = Ev (ExistTopic "a" false) (Ok true) :: Ev Lock tt :: tr /\
    ReceiveOn "a" "b@c" 0%nat tr
      (returned (run Ref.handle (ReceiveMsg sharing "a" "b@c") seenA)).1 /\
    (returned (run Ref.handle (ReceiveMsg sharing "a" "b@c") seenA)).2 = sharing.
Proof.
  apply (colliding_pairs_share_a_session Ref.world Ref.handle sharing "a" "b" "c"
           0%nat seenA seenA).
  - vm_compute. reflexivity.
  - vm_compute. reflexivity.
Defined.

(** X20: when the lenient check does not answer that the queue exists,
    [ReceiveMsg] makes no further call: the lock is not taken, no session is
    constructed and the cache is left as it was; it returns an error,
    not-found if the check answered false. *)
Theorem ReceiveMsg_refused_opens_nothing (W : Type) (h : handler W)
    (q : queueImp) (queue group : string) (w : W) :
  (h _ (ExistTopic queue false) w).1 <> Ok true ->
  trace (run h (ReceiveMsg q queue group) w)
    = [Ev (ExistTopic queue false) (h _ (ExistTopic queue false) w).1] /\
  final (run h (ReceiveMsg q queue group) w) = (h _ (ExistTopic queue false) w).2 /\
  (returned (run h (ReceiveMsg q queue group) w)).2 = q /\
  match (h _ (ExistTopic queue false) w).1 with
  | Ok _ => exists msg,
      (returned (run h (ReceiveMsg q queue group) w)).1 = Err (NotFound msg)
  | Err err => (returned (run h (ReceiveMsg q queue group) w)).1 = Err err
  end.
Proof.
  unfold ReceiveMsg, trace, returned, final. simp.
  destruct (h _ (ExistTopic queue false) w) as [r w1]. cbn [fst snd].
  destruct r as [[] | err]; simp; intros Hne; [congruence | |];
    repeat split. eexists. reflexivity.
Qed.

Lemma ReceiveMsg_refused_opens_nothing_witness :
  trace (run Ref.handle (ReceiveMsg Example.service "q9" "g1") Example.withMessage)
    = [Ev (ExistTopic "q9" false) (Ok false)] /\
  (returned (run Ref.handle (ReceiveMsg Example.service "q9" "g1")
               Example.withMessage)).2 = Example.service.
Proof.
  destruct (ReceiveMsg_refused_opens_nothing Ref.world Ref.handle Example.service
              "q9" "g1" Example.withMessage) as (Ht & _ & Hq & _).
  - vm_compute. discriminate.
  - split; [exact Ht | exact Hq].
Defined.

Ltac follow :=
  repeat first
    [ answer
    | match goal with
      | |- context [match ?r with _ => _ end] => is_var r; destruct r; simp
      end ].

(** X21: [Update], [GetSingleGroup], [GetSendMetrics], [GetReceiveMetrics],
    [SendMsg] and [ReceiveMsg] never write to the registry or to the
    metadata store: no topic or queue record is created or deleted and no
    group record is added, updated or deleted. *)
Theorem only_lifecycle_and_group_calls_write (W : Type) (h : handler W)
    (q : queueImp) (queue group : string) (data : bytes)
    (start stop intervalnum : Z) (w : W) :
  existsb (eventIs (@writes)) (trace (run h (Update q queue) w)) = false /\
  existsb (eventIs (@writes)) (trace (run h (GetSingleGroup q group queue) w)) = false /\
  existsb (eventIs (@writes))
    (trace (run h (GetSendMetrics q queue group start stop intervalnum) w)) = false /\
  existsb (eventIs (@writes))
    (trace (run h (GetReceiveMetrics q queue group start stop intervalnum) w)) = false /\
  existsb (eventIs (@writes)) (trace (run h (SendMsg q queue group data) w)) = false /\
  existsb (eventIs (@writes)) (trace (run h (ReceiveMsg q queue group) w)) = false.
Proof.
  unfold Update, GetSingleGroup, GetSendMetrics, GetReceiveMetrics, SendMsg,
    ReceiveMsg, trace.
  repeat split; simp; try (follow; reflexivity).
  answer. destruct r as [[] | err]; simp; try reflexivity.
  answer. destruct r.
  destruct (consumerMap q !! consumerId queue group); simp; follow; reflexivity.
Qed.

(** X22: [Create] and [Delete] never read or write a group record; in
    particular [Delete] removes the queue's record and topic and leaves the
    group records of the queue to the metadata store. *)
Theorem lifecycle_leaves_group_records (W : Type) (h : handler W)
    (q : queueImp) (queue : string) (w : W) :
  existsb (eventIs (@onGroupRecords)) (trace (run h (Create q queue) w)) = false /\
  existsb (eventIs (@onGroupRecords)) (trace (run h (Delete q queue) w)) = false.
Proof.
  split.
  - destruct (Create_runs h q queue w); reflexivity.
  - destruct (Delete_runs h q queue w); reflexivity.
Qed.
